(** * go-fuse: the platform writers, the poll hack and the xattr shims,
      embedded in Rocq.

    The development follows the Go sources:
    - [server_linux] and [server_unix]: the two [systemWrite] methods of the
      session server (the Linux build, and the [!linux] build), and the
      constant [useSingleReader] of each;
    - [poll_darwin]: [sysPoll] and [pollHack];
    - [xattr] and [removexattr]: [getxattr], [GetXAttr], [listxattr],
      [ListXAttr], [Setxattr], [Removexattr].

    Go code runs in the monad [M]: it issues events (system calls and calls
    into collaborators), the environment answers each one as a function of
    the history, and a run either returns, panics, or does not terminate
    within its fuel. Helpers whose source is not at hand are modelled from
    the specification, and say so. *)

From Stdlib Require Import ZArith Lia.
From stdpp Require Import strings list sorting.

Open Scope Z_scope.

(** ** Go values *)

Definition byte := Byte.byte.

(** A Go [error] holding a [syscall.Errno]; [None] is [nil]. *)
Definition error := option Z.

(** [fuse.Status]: an errno, [OK] being zero. *)
Definition Status := Z.
Definition OK : Status := 0.

Definition EPERM : Z := 1.
Definition EINTR : Z := 4.
Definition EINVAL : Z := 22.

(** [uint32(x)] on an [int]. *)
Definition uint32 (x : Z) : Z := x mod 2 ^ 32.

(** [int(x)] on a [uintptr], 64-bit words. *)
Definition int_of_uintptr (x : Z) : Z :=
  let w := x mod 2 ^ 64 in if w <? 2 ^ 63 then w else w - 2 ^ 64.

(** [len(b)] as an [int]. *)
Definition len {A} (l : list A) : Z := Z.of_nat (length l).

(** What the environment hands back for one event: the first result
    register, the errno (zero when the call succeeded) and the bytes it
    stored into the caller's buffer. *)
Record sysret := SysRet { r1 : Z; errno : Z; out : list byte }.

(** The [error] a [syscall] wrapper builds from an errno. *)
Definition errnoErr (e : Z) : error := if e =? 0 then None else Some e.

(** ** The execution monad *)

Section Exec.
Context {E : Type}.

(** The environment: the answer to an event, given everything the
    program did before it (oldest event first). *)
Definition Kernel := list E -> E -> sysret.

Inductive outcome (A : Type) :=
| Returns (a : A) (tr : list E)
| Panics (msg : string) (tr : list E)
| Diverges.

Definition M (A : Type) := Kernel -> list E -> outcome A.

Definition ret {A} (a : A) : M A := fun _ tr => Returns A a tr.

Definition bind {A B} (m : M A) (k : A -> M B) : M B :=
  fun K tr =>
    match m K tr with
    | Returns _ a tr' => k a K tr'
    | Panics _ msg tr' => Panics B msg tr'
    | Diverges _ => Diverges B
    end.

(** Issue one event and receive the environment's answer. *)
Definition call (e : E) : M sysret :=
  fun K tr => Returns sysret (K tr e) (tr ++ [e]).

Definition panic {A} (msg : string) : M A := fun _ tr => Panics A msg tr.

Definition diverge {A} : M A := fun _ _ => Diverges A.
End Exec.

Arguments Kernel E : clear implicits.
Arguments outcome E A : clear implicits.
Arguments M E A : clear implicits.
Arguments Returns {E A} a tr.
Arguments Panics {E A} msg tr.
Arguments Diverges {E A}.

Notation "x <- c ;; k" := (bind c (fun x => k))
  (at level 63, c at next level, right associativity).
Notation "c ;;; k" := (bind c (fun _ => k))
  (at level 63, right associativity).

(** The events a run added to the history it started from. *)
Definition emitted {E} (before after : list E) : list E :=
  drop (length before) after.

(** Modelled from the spec: [handleEINTR] is not under src/. Section 7:
    "EINTR is retried transparently", "EINTR on syscalls (retry loop)": the
    function is run again for as long as it fails with EINTR. The Go loop
    has no bound; [fuel] bounds the number of rounds of a run. *)
Fixpoint handleEINTR {E} (fuel : nat) (fn : M E error) : M E error :=
  match fuel with
  | O => diverge
  | S fuel' =>
      err <- fn ;;
      if decide (err = Some EINTR) then handleEINTR fuel' fn else ret err
  end.

(** Modelled from the spec: [ToStatus] is not under src/. Section 4.1 and 7:
    a status is zero on success and the errno of the failure otherwise. *)
Definition ToStatus (err : error) : Status :=
  match err with None => OK | Some e => e end.

(** ** The session writer: [systemWrite] *)

(** Modelled from the spec: the fd-backed read result is not under src/.
    Section 4.4: "a payload identified by a file descriptor + offset +
    length". *)
Record readResultFd := ReadResultFd { Fd : Z; Off : Z; Sz : Z }.

(** The [fuse.ReadResult] interface value a Read handler returned: flat
    bytes, or an fd-backed payload. *)
Inductive ReadResult :=
| readResultData (Data : list byte)
| readResultFdOf (f : readResultFd).

(** The fields of [request] that [systemWrite] touches. *)
Record request := Request {
  outputBuf : list byte;
  flatData : list byte;
  fdData : option readResultFd;
  readResult : option ReadResult;
  status : Status;
}.

(** The fields of [Server] that [systemWrite] touches; [opts.Logger] is the
    [Println] event. *)
Record Server := MkServer { mountFd : Z; canSplice : bool }.

Inductive event :=
| Write (fd : Z) (p : list byte)
| Writev (fd : Z) (iovecs : list (list byte))
| TrySplice (fd : Z) (header : list byte) (f : readResultFd)
| Println (msg : string) (err : Z)
| AllocOut (size : Z)
| Pread (fd : Z) (n : Z) (off : Z)
| ReadResultDone (r : ReadResult).

(** Field updates, as the Go assignments [req.f = v]. *)
Definition set_outputBuf (req : request) (b : list byte) : request :=
  Request b (flatData req) (fdData req) (readResult req) (status req).
Definition set_flatData (req : request) (b : list byte) : request :=
  Request (outputBuf req) b (fdData req) (readResult req) (status req).
Definition set_status (req : request) (s : Status) : request :=
  Request (outputBuf req) (flatData req) (fdData req) (readResult req) s.

(** Modelled from the spec: [request.flatDataSize] is not under src/.
    Section 3: a request owns "optional flat data" and an "optional
    fd-backed payload"; the size of the reply's data is the length of the
    fd-backed payload when there is one, of the flat data otherwise. *)
Definition flatDataSize (req : request) : Z :=
  match fdData req with
  | Some f => Sz f
  | None => len (flatData req)
  end.

(** [syscall.Write] (and [unix.Write]): one write(2) on [fd]. *)
Definition syscall_Write (fd : Z) (p : list byte) : M event (Z * error) :=
  r <- call (Write fd p) ;;
  ret (r1 r, errnoErr (errno r)).

(** Modelled from the spec: [writev] is not under src/. Section 4.5: "a
    single writev (header + flat data)"; section 7: on the mount fd "EINTR
    is retried transparently". *)
Definition writev (fuel : nat) (fd : Z) (packet : list (list byte))
  : M event (Z * error) :=
  err <- handleEINTR fuel
           (r <- call (Writev fd packet) ;; ret (errnoErr (errno r))) ;;
  ret (len (concat packet), err).

(** Modelled from the spec: [Server.trySplice] is not under src/. Section
    4.4: the writer "attempts splice from that fd to the mount fd through
    an intermediate pipe"; the attempt is one event, and it fails when the
    environment answers a non-zero errno. The source hands the request over
    by pointer; what the attempt writes into the header buffer of the
    request is not modelled. *)
Definition trySplice (ms : Server) (req : request) (f : readResultFd)
  : M event error :=
  r <- call (TrySplice (mountFd ms) (outputBuf req) f) ;;
  ret (errnoErr (errno r)).

(** Modelled from the spec: [Server.allocOut] is not under src/. Section
    4.2: a buffer of the requested size is acquired from the pool;
    "buffers are not zeroed on reuse", the bytes here stand for any. *)
Definition allocOut (ms : Server) (req : request) (size : Z)
  : M event (list byte) :=
  call (AllocOut size) ;;;
  ret (replicate (Z.to_nat size) Byte.x00).

(** Modelled from the spec: [readResultFd.Bytes] is not under src/. Section
    4.4: "reading the bytes into a buffer": one positioned read of the
    payload, of at most [len(buf)] bytes; the result is the part of the
    buffer that was filled, and the status of the read. *)
Definition Bytes (f : readResultFd) (buf : list byte)
  : M event (list byte * Status) :=
  let sz := Z.min (Sz f) (len buf) in
  r <- call (Pread (Fd f) sz (Off f)) ;;
  ret (take (Z.to_nat sz) (out r), ToStatus (errnoErr (errno r))).

(** [req.readResult.Done()]; the method call on a nil interface panics. *)
Definition Done (r : option ReadResult) : M event unit :=
  match r with
  | Some rr => call (ReadResultDone rr) ;;; ret tt
  | None => panic "invalid memory address or nil pointer dereference"
  end.

(** The Linux build of the server. *)
Module server_linux.
Section Writer.
(** [request.serializeHeader] is not under src/: the bytes it leaves in
    [outputBuf], given the request and the flat data length, are a
    parameter. *)
Variable serializeHeader : request -> Z -> list byte.

Definition useSingleReader : bool := false.

Definition systemWrite (fuel : nat) (ms : Server) (req : request)
  : M event (request * Status) :=
  if decide (flatDataSize req = 0) then
    err <- handleEINTR fuel
             (res <- syscall_Write (mountFd ms) (outputBuf req) ;;
              ret (snd res)) ;;
    ret (req, ToStatus err)
  else
    let write_both (req : request) :=
      res <- writev fuel (mountFd ms) [outputBuf req; flatData req] ;;
      (if decide (readResult req = None) then ret tt
       else Done (readResult req)) ;;;
      ret (req, ToStatus (snd res)) in
    let read_into_buffer (f : readResultFd) :=
      let sz := flatDataSize req in
      buf <- allocOut ms req (uint32 sz) ;;
      res <- Bytes f buf ;;
      let req := set_status (set_flatData req (fst res)) (snd res) in
      let req := set_outputBuf req
                   (serializeHeader req (len (flatData req))) in
      write_both req in
    match fdData req with
    | Some f =>
        if canSplice ms then
          err <- trySplice ms req f ;;
          match err with
          | None => Done (readResult req) ;;; ret (req, OK)
          | Some e =>
              call (Println "trySplice:" e) ;;;
              read_into_buffer f
          end
        else read_into_buffer f
    | None => write_both req
    end.
End Writer.
End server_linux.

(** The [!linux] build of the server. *)
Module server_unix.
Section Writer.
Variable serializeHeader : request -> Z -> list byte.

(** "OSX and FreeBSD has races when multiple routines read from the FUSE
    device". *)
Definition useSingleReader : bool := true.

Definition systemWrite (fuel : nat) (ms : Server) (req : request)
  : M event (request * Status) :=
  if decide (flatDataSize req = 0) then
    err <- handleEINTR fuel
             (res <- syscall_Write (mountFd ms) (outputBuf req) ;;
              ret (snd res)) ;;
    ret (req, ToStatus err)
  else
    req <- match fdData req with
           | Some f =>
               let sz := flatDataSize req in
               buf <- allocOut ms req (uint32 sz) ;;
               res <- Bytes f buf ;;
               let req := set_status (set_flatData req (fst res))
                                     (snd res) in
               ret (set_outputBuf req
                      (serializeHeader req (len (flatData req))))
           | None => ret req
           end ;;
    res <- writev fuel (mountFd ms) [outputBuf req; flatData req] ;;
    (if decide (readResult req = None) then ret tt
     else Done (readResult req)) ;;;
    ret (req, ToStatus (snd res)).
End Writer.
End server_unix.


(** ** Observations on runs *)

(** [fn] is one system call: it issues [ev] and returns its error. *)
Definition one_call {E} (fn : M E error) (ev : E) : Prop :=
  forall K tr, fn K tr = Returns (errnoErr (errno (K tr ev))) (tr ++ [ev]).

(** The environment interrupts [ev] exactly [k] times from history [tr] on,
    and then answers errno [e], success ([0]) or another failure. *)
Definition interrupted_then {E} (K : Kernel E) (tr : list E) (ev : E)
    (k : nat) (e : Z) : Prop :=
  (forall i, (i < k)%nat -> errno (K (tr ++ replicate i ev) ev) = EINTR) /\
  errno (K (tr ++ replicate k ev) ev) = e /\ e <> EINTR.

(** The [Done] call of lines 38-40. *)
Definition doneEvents (req : request) : list event :=
  match readResult req with
  | Some rr => [ReadResultDone rr]
  | None => []
  end.

(** The number of [ReadResult.Done] calls among some events. *)
Definition isDone (ev : event) : bool :=
  match ev with ReadResultDone _ => true | _ => false end.
Definition countDone (evs : list event) : nat :=
  length (List.filter isDone evs).

(** The events of a splice attempt that failed (lines 23 and 28); none when
    splicing was not negotiated. *)
Definition spliceEvents (ms : Server) (req : request) (f : readResultFd)
    (K : Kernel event) (tr : list event) : list event :=
  let attempt := TrySplice (mountFd ms) (outputBuf req) f in
  if canSplice ms then [attempt; Println "trySplice:" (errno (K tr attempt))]
  else [].

(** The environments and requests used as concrete runs below. *)
Definition K_ok : Kernel event :=
  fun _ _ => SysRet 0 0 [Byte.x61; Byte.x62; Byte.x63].

(** Every call fails with EINTR until the history holds [n] events. *)
Definition K_intr (n : nat) : Kernel event :=
  fun tr _ => if (length tr <? n)%nat then SysRet 0 EINTR []
              else SysRet 0 0 [Byte.x61; Byte.x62; Byte.x63].

(** A header whose second byte is the flat data length. *)
Definition header_with_length (req : request) (n : Z) : list byte :=
  [Byte.x10; default Byte.x00 (Byte.of_N (Z.to_N n))].

Definition fd_payload (sz : Z) : readResultFd := ReadResultFd 9 0 sz.

Definition fd_request (sz : Z) : request :=
  Request [Byte.x10; Byte.x00] [] (Some (fd_payload sz))
          (Some (readResultFdOf (fd_payload sz))) OK.

Definition flat_request (data : list byte) : request :=
  Request [Byte.x10; Byte.x00] data None (Some (readResultData data)) OK.

(** ** Build selection: [useSingleReader] *)

(** The target operating systems ([GOOS]). *)
Inductive GOOS := linux | android | darwin | freebsd | netbsd | openbsd | dragonfly.

(** A [//go:build] expression. *)
Inductive constraint :=
| Tag (t : GOOS)
| Not (c : constraint)
| And (c1 c2 : constraint)
| Or (c1 c2 : constraint).

(** The operating-system tags a target satisfies: its own, and [linux] for
    [android] as well. *)
Definition satisfies (goos tag : GOOS) : bool :=
  match goos, tag with
  | linux, linux | android, android | android, linux
  | darwin, darwin | freebsd, freebsd | netbsd, netbsd
  | openbsd, openbsd | dragonfly, dragonfly => true
  | _, _ => false
  end.

Fixpoint eval (goos : GOOS) (c : constraint) : bool :=
  match c with
  | Tag t => satisfies goos t
  | Not c => negb (eval goos c)
  | And c1 c2 => eval goos c1 && eval goos c2
  | Or c1 c2 => eval goos c1 || eval goos c2
  end.

(** The constraint line of the [!linux] server file: [//go:build !linux]. *)
Definition server_unix_constraint : constraint := Not (Tag linux).

(** The constant [useSingleReader] of package [fuse] in a build for [goos]:
    the declaration of the [!linux] file where its constraint holds, that of
    the Linux file elsewhere. *)
Definition useSingleReader (goos : GOOS) : bool :=
  if eval goos server_unix_constraint
  then server_unix.useSingleReader
  else server_linux.useSingleReader.

(** Modelled from the spec: the reader loops of the session ([Server.loop],
    [Server.readRequest]) are not under src/. Section 4.5: "multiple
    concurrent reader tasks are permitted" on Linux; where the toggle is
    set, "a single reader must be used". The session starts with one
    reader; a reader may start another one only when the toggle is off and
    the bound is not reached. *)
Record readers := Readers {
  singleReader : bool;
  maxReaders : nat;
  reqReaders : nat;
}.

(** Modelled from the spec: the session starts with one reader, and takes
    its toggle from the build. *)
Definition NewServer (goos : GOOS) (maxReaders : nat) : readers :=
  Readers (useSingleReader goos) maxReaders 1.

(** Modelled from the spec: a reader starts another one only when the
    toggle is off and the bound is not reached. *)
Inductive reader_step : readers -> readers -> Prop :=
| reader_spawn s :
    singleReader s = false -> (reqReaders s < maxReaders s)%nat ->
    reader_step s (Readers (singleReader s) (maxReaders s) (S (reqReaders s))).

(** The sessions a run can reach. *)
Inductive reader_steps : readers -> readers -> Prop :=
| reader_steps_refl s : reader_steps s s
| reader_steps_step s1 s2 s3 :
    reader_steps s1 s2 -> reader_step s2 s3 -> reader_steps s1 s3.

(** ** The poll hack (Darwin) *)

Module poll_darwin.

Record pollFd := PollFd { Fd : Z; Events : Z; Revents : Z }.

Inductive event :=
| SYS_OPEN (path : string) (mode : Z) (perm : Z)
| SYS_POLL (fds : list pollFd) (timeout : Z)
| SYS_CLOSE (fd : Z).

(** [int32(x)] on an [int]. *)
Definition int32 (x : Z) : Z :=
  let w := x mod 2 ^ 32 in if w <? 2 ^ 31 then w else w - 2 ^ 32.

Definition O_RDONLY : Z := 0.

(** [ENOSYS] on Darwin. *)
Definition ENOSYS : Z := 78.

(** [syscall.Open]: the descriptor, or [-1] and the errno. *)
Definition syscall_Open (path : string) (mode perm : Z) : M event (Z * error) :=
  r <- call (SYS_OPEN path mode perm) ;;
  if errno r =? 0 then ret (r1 r, None) else ret (-1, Some (errno r)).

(** [syscall.Close]. *)
Definition syscall_Close (fd : Z) : M event error :=
  r <- call (SYS_CLOSE fd) ;;
  ret (errnoErr (errno r)).

Definition sysPoll (fds : list pollFd) (timeout : Z) : M event (Z * error) :=
  match fds with
  | [] => panic "index out of range [0] with length 0"
  | _ :: _ =>
      r <- call (SYS_POLL fds timeout) ;;
      let n := int_of_uintptr (r1 r) in
      let err := if decide (errno r <> 0) then Some (errno r) else None in
      ret (n, err)
  end.

Section PollHack.
(** [pollHackName] and [filepath.Join] are not under src/: the name of the
    probe file and the joining of path elements are parameters. *)
Variable pollHackName : string.
Variable filepath_Join : string -> string -> string.

Definition pollHack (mountPoint : string) : M event error :=
  let POLLIN := 0x1 in
  let POLLPRI := 0x2 in
  let POLLOUT := 0x4 in
  let POLLRDHUP := 0x2000 in
  let POLLERR := 0x8 in
  let POLLHUP := 0x10 in
  res <- syscall_Open (filepath_Join mountPoint pollHackName) O_RDONLY 0 ;;
  let fd := fst res in
  let err := snd res in
  if decide (err = Some EPERM) then ret None
  else if decide (err <> None) then ret err
  else
    let pollData :=
      [PollFd (int32 fd) (Z.lor (Z.lor POLLIN POLLPRI) POLLOUT) 0] in
    sysPoll pollData 0 ;;;
    syscall_Close fd ;;;
    ret None.
End PollHack.

(** Modelled from the spec: the kernel side of the mount and the POLL
    handler of the core are not under src/. A poll(2) on a descriptor of the
    mount makes the kernel send one POLL request; section 4.5: "The core
    must reply ENOSYS to POLL". [pollReplies] lists the statuses of the POLL
    replies that the events of a run have elicited. *)
Definition pollReplies (evs : list event) : list Status :=
  omap (fun ev => match ev with SYS_POLL _ _ => Some ENOSYS | _ => None end) evs.

(** The environments used as concrete runs below: every call succeeds and
    [open] yields descriptor 5; or [open] fails with the given errno. *)
Definition K_open_ok : Kernel event := fun _ _ => SysRet 5 0 [].
Definition K_open_fails (e : Z) : Kernel event :=
  fun _ ev => match ev with SYS_OPEN _ _ _ => SysRet (-1) e [] | _ => SysRet 0 0 [] end.

Definition join_with_slash (dir name : string) : string :=
  String.append dir (String.append "/" name).

End poll_darwin.

(** ** The xattr shims *)

Module xattr.

(** A Go [[]byte]: the elements up to [len], and the rest of the backing
    array up to [cap]. *)
Record slice := Slice { elems : list byte; spare : list byte }.

Definition cap (s : slice) : Z := len (elems s ++ spare s).

(** [make([]byte, n)], for [0 <= n]. *)
Definition make (n : Z) : slice := Slice (replicate (Z.to_nat n) Byte.x00) [].

(** [s[:n]]; [None] when Go panics with "slice bounds out of range". *)
Definition reslice (s : slice) (n : Z) : option slice :=
  if (0 <=? n) && (n <=? cap s)
  then Some (Slice (take (Z.to_nat n) (elems s ++ spare s))
                   (drop (Z.to_nat n) (elems s ++ spare s)))
  else None.

(** The buffer after the kernel stored [bytes] at its start (at most
    [len(dest)] of them). *)
Definition stored (dest : slice) (bytes : list byte) : slice :=
  Slice (take (length (elems dest)) (bytes ++ drop (length bytes) (elems dest)))
        (spare dest).

Inductive event :=
| SYS_GETXATTR (path attr : string) (size : Z)
| SYS_LISTXATTR (path : string) (size : Z)
| SYS_SETXATTR (path attr : string) (data : list byte) (flags : Z).

Fixpoint hasNUL (s : string) : bool :=
  match s with
  | EmptyString => false
  | String c s' => if Ascii.eqb c Ascii.zero then true else hasNUL s'
  end.

(** [syscall.BytePtrFromString]: EINVAL when the string holds a NUL byte,
    else the NUL-terminated bytes the pointer addresses. *)
Definition BytePtrFromString (s : string) : list byte + Z :=
  if hasNUL s then inr EINVAL
  else inl (String.list_byte_of_string s ++ [Byte.x00]).

(** [bytes.Split(s, []byte{sep})]. *)
Fixpoint bytes_Split (s : list byte) (sep : byte) : list (list byte) :=
  match s with
  | [] => [[]]
  | b :: s' =>
      if Byte.eqb b sep then [] :: bytes_Split s' sep
      else match bytes_Split s' sep with
           | cur :: rest => (b :: cur) :: rest
           | [] => [[b]]
           end
  end.

(** Returns [sz], [errno], and the buffer as the kernel left it. *)
Definition getxattr (path attr : string) (dest : slice)
  : M event (Z * Z * slice) :=
  match BytePtrFromString path with
  | inr _ => ret (0, EINVAL, dest)
  | inl pathBs =>
      match BytePtrFromString attr with
      | inr _ => ret (0, EINVAL, dest)
      | inl attrBs =>
          match elems dest with
          | [] => panic "index out of range [0] with length 0"
          | _ :: _ =>
              r <- call (SYS_GETXATTR path attr (len (elems dest))) ;;
              ret (int_of_uintptr (r1 r), int_of_uintptr (errno r),
                   stored dest (out r))
          end
      end
  end.

(** The [for] loop of [GetXAttr], lines 37-40. *)
Fixpoint GetXAttr_loop (fuel : nat) (path attr : string)
    (dest : slice) (sz errno : Z) : M event (Z * Z * slice) :=
  if (sz >? cap dest) && (errno =? 0) then
    match fuel with
    | O => diverge
    | S fuel' =>
        let dest := make sz in
        res <- getxattr path attr dest ;;
        GetXAttr_loop fuel' path attr (snd res) (fst (fst res)) (snd (fst res))
    end
  else ret (sz, errno, dest).

(** The value is [None] for a nil slice. *)
Definition GetXAttr (fuel : nat) (path attr : string) (dest : slice)
  : M event (option (list byte) * Z) :=
  res <- getxattr path attr dest ;;
  res <- GetXAttr_loop fuel path attr (snd res) (fst (fst res)) (snd (fst res)) ;;
  let sz := fst (fst res) in
  let errno := snd (fst res) in
  let dest := snd res in
  if decide (errno <> 0) then ret (None, errno)
  else match reslice dest sz with
       | Some value => ret (Some (elems value), errno)
       | None => panic "slice bounds out of range"
       end.

Definition listxattr (path : string) (dest : slice)
  : M event (Z * Z * slice) :=
  match BytePtrFromString path with
  | inr _ => ret (0, EINVAL, dest)
  | inl pathbs =>
      r <- call (SYS_LISTXATTR path (len (elems dest))) ;;
      ret (int_of_uintptr (r1 r), int_of_uintptr (errno r),
           stored dest (out r))
  end.

(** The [for] loop of [ListXAttr], lines 75-78. *)
Fixpoint ListXAttr_loop (fuel : nat) (path : string)
    (dest : slice) (sz errno : Z) : M event (Z * Z * slice) :=
  if (sz >? cap dest) && (errno =? 0) then
    match fuel with
    | O => diverge
    | S fuel' =>
        let dest := make sz in
        res <- listxattr path dest ;;
        ListXAttr_loop fuel' path (snd res) (fst (fst res)) (snd (fst res))
    end
  else ret (sz, errno, dest).

Definition ListXAttr (fuel : nat) (path : string)
  : M event (option (list string) * Z) :=
  let dest := make 0 in
  res <- listxattr path dest ;;
  if decide (snd (fst res) <> 0) then ret (None, snd (fst res))
  else
    res <- ListXAttr_loop fuel path (snd res) (fst (fst res)) (snd (fst res)) ;;
    let sz := fst (fst res) in
    let errno := snd (fst res) in
    let dest := snd res in
    (* -1 to drop the final empty slice. *)
    match reslice dest (sz - 1) with
    | None => panic "slice bounds out of range"
    | Some dest =>
        let attributesBytes := bytes_Split (elems dest) Byte.x00 in
        let attributes := map String.string_of_list_byte attributesBytes in
        ret (Some attributes, errno)
    end.

Definition Setxattr (path attr : string) (data : slice) (flags : Z)
  : M event Z :=
  match BytePtrFromString path with
  | inr _ => ret EINVAL
  | inl pathbs =>
      match BytePtrFromString attr with
      | inr _ => ret EINVAL
      | inl attrbs =>
          match elems data with
          | [] => panic "index out of range [0] with length 0"
          | _ :: _ =>
              r <- call (SYS_SETXATTR path attr (elems data) flags) ;;
              ret (int_of_uintptr (errno r))
          end
      end
  end.

(** Environments for concrete runs: a file without extended attributes,
    and a file with the attributes [user.a] and [user.b] (14 bytes). *)
Definition K_no_attributes : Kernel event := fun _ _ => SysRet 0 0 [].

Definition two_names : list byte :=
  String.list_byte_of_string "user.a" ++ [Byte.x00] ++
  String.list_byte_of_string "user.b" ++ [Byte.x00].

Definition K_two_attributes : Kernel event :=
  fun _ ev =>
    match ev with
    | SYS_LISTXATTR _ size =>
        if size <? 14 then SysRet 14 0 [] else SysRet 14 0 two_names
    | _ => SysRet 0 0 []
    end.

End xattr.

(** ** The xattr shims, continued *)

Module removexattr.

Inductive event :=
| SYS_REMOVEXATTR (path attr : string).

Definition Removexattr (path attr : string) : M event Z :=
  match xattr.BytePtrFromString path with
  | inr _ => ret EINVAL
  | inl pathbs =>
      match xattr.BytePtrFromString attr with
      | inr _ => ret EINVAL
      | inl attrbs =>
          r <- call (SYS_REMOVEXATTR path attr) ;;
          ret (int_of_uintptr (errno r))
      end
  end.

End removexattr.

(** The buffer sizes of the getxattr calls among some events. *)
Definition getxattrSizes (evs : list xattr.event) : list Z :=
  omap (fun ev => match ev with
                  | xattr.SYS_GETXATTR _ _ size => Some size
                  | _ => None
                  end) evs.

(** [ev] is a getxattr call on [path] and [attr]. *)
Definition isGetxattr (path attr : string) (ev : xattr.event) : Prop :=
  exists size, ev = xattr.SYS_GETXATTR path attr size.

(** The attribute list as listxattr(2) stores it: each name followed by a
    NUL byte. *)
Definition nameList (names : list string) : list byte :=
  concat (map (fun name => String.list_byte_of_string name ++ [Byte.x00]) names).

(** A kernel that holds the attributes [names] of every file: listxattr
    reports the size of the list, and stores the list when the buffer is
    large enough for it. *)
Definition K_attributes (names : list string) : Kernel xattr.event :=
  fun _ ev =>
    match ev with
    | xattr.SYS_LISTXATTR _ size =>
        if size <? len (nameList names) then SysRet (len (nameList names)) 0 []
        else SysRet (len (nameList names)) 0 (nameList names)
    | _ => SysRet 0 0 []
    end.

(** A kernel that reports 3 bytes to a getxattr with a buffer of less than
    3 bytes, and stores the value [abc] otherwise. *)
Definition K_value_abc : Kernel xattr.event :=
  fun _ ev =>
    match ev with
    | xattr.SYS_GETXATTR _ _ size =>
        if size <? 3 then SysRet 3 0 []
        else SysRet 3 0 [Byte.x61; Byte.x62; Byte.x63]
    | _ => SysRet 0 0 []
    end.

(** A kernel whose every call fails with errno [e], with [-1] in the result
    register. *)
Definition K_fails (e : Z) : Kernel xattr.event :=
  fun _ _ => SysRet (2 ^ 64 - 1) e [].

(** A kernel whose listxattr reports 14 bytes to the probe and then fails
    with ERANGE (the list grew in between). *)
Definition K_list_grows : Kernel xattr.event :=
  fun tr _ => match tr with
              | [] => SysRet 14 0 []
              | _ :: _ => SysRet (2 ^ 64 - 1) 34 []
              end.
(** * Theorems *)

(** ** Go values on examples *)

Example uint32_wraps : uint32 (2 ^ 32 + 5) = 5.
Proof. reflexivity. Qed.

Example int_of_uintptr_minus_one : int_of_uintptr (2 ^ 64 - 1) = -1.
Proof. reflexivity. Qed.

Example bytes_Split_two_names :
  xattr.bytes_Split [Byte.x61; Byte.x00; Byte.x62] Byte.x00 =
    [[Byte.x61]; [Byte.x62]].
Proof. reflexivity. Qed.

Example bytes_Split_trailing_separator :
  xattr.bytes_Split [Byte.x61; Byte.x00] Byte.x00 = [[Byte.x61]; []].
Proof. reflexivity. Qed.

Example bytes_Split_empty : xattr.bytes_Split [] Byte.x00 = [[]].
Proof. reflexivity. Qed.

Example reslice_beyond_cap : xattr.reslice (xattr.make 2) 3 = None.
Proof. reflexivity. Qed.

Example reslice_negative : xattr.reslice (xattr.make 0) (0 - 1) = None.
Proof. reflexivity. Qed.

Example stored_prefix :
  xattr.stored (xattr.make 3) [Byte.x61; Byte.x62] =
    xattr.Slice [Byte.x61; Byte.x62; Byte.x00] [].
Proof. reflexivity. Qed.

(** ** The retry loop *)

Section Retry.
Context {E : Type}.
Implicit Types (K : Kernel E) (tr : list E) (fn : M E error) (ev : E).

Lemma errnoErr_EINTR e : errnoErr e = Some EINTR <-> e = EINTR.
Proof.
  unfold errnoErr. destruct (Z.eqb_spec e 0) as [->|Hne].
  - split; [discriminate | intros H; discriminate H].
  - split; [intros H; congruence | intros ->; reflexivity].
Qed.

Lemma interrupted_then_S K tr ev k e :
  interrupted_then K tr ev (S k) e ->
  errno (K tr ev) = EINTR /\ interrupted_then K (tr ++ [ev]) ev k e.
Proof.
  intros (Hi & He & Hne). split.
  - specialize (Hi O ltac:(lia)). simpl in Hi.
    now rewrite app_nil_r in Hi.
  - repeat split; [|now rewrite <- app_assoc|exact Hne].
    intros i Hlt. rewrite <- app_assoc. apply (Hi (S i)). lia.
Qed.

Lemma handleEINTR_retries fn ev K k : forall tr e fuel,
  one_call fn ev ->
  interrupted_then K tr ev k e ->
  (k < fuel)%nat ->
  handleEINTR fuel fn K tr =
    Returns (errnoErr e) (tr ++ replicate (S k) ev).
Proof.
  induction k as [|k IH]; intros tr e fuel Hfn Hk Hfuel;
    (destruct fuel as [|fuel]; [lia|]); simpl; unfold bind; rewrite Hfn.
  - destruct Hk as (_ & He & Hne). simpl in He. rewrite app_nil_r in He.
    rewrite He. destruct (decide (errnoErr e = Some EINTR)) as [Heq|_].
    + now apply errnoErr_EINTR in Heq.
    + reflexivity.
  - apply interrupted_then_S in Hk as [H0 Hk]. rewrite H0.
    destruct (decide (errnoErr EINTR = Some EINTR)) as [_|Hn];
      [|now destruct Hn].
    rewrite (IH (tr ++ [ev]) e fuel Hfn Hk ltac:(lia)).
    now rewrite <- app_assoc.
Qed.

(** A call that is interrupted every time is retried for as long as the
    run lasts: no bound on the number of rounds gives up. *)
Lemma handleEINTR_never_gives_up fn ev K : forall fuel tr,
  one_call fn ev ->
  (forall i, errno (K (tr ++ replicate i ev) ev) = EINTR) ->
  handleEINTR fuel fn K tr = Diverges.
Proof.
  induction fuel as [|fuel IH]; intros tr Hfn Hall; [reflexivity|].
  simpl. unfold bind. rewrite Hfn.
  pose proof (Hall O) as H0. simpl in H0. rewrite app_nil_r in H0.
  rewrite H0. destruct (decide (errnoErr EINTR = Some EINTR)) as [_|Hn];
    [|now destruct Hn].
  apply IH; [exact Hfn|]. intros i. rewrite <- app_assoc. apply (Hall (S i)).
Qed.
End Retry.

Lemma one_call_Write fd p :
  one_call (res <- syscall_Write fd p ;; ret (snd res)) (Write fd p).
Proof. intros K tr. reflexivity. Qed.

Lemma one_call_Writev fd packet :
  one_call (r <- call (Writev fd packet) ;; ret (errnoErr (errno r)))
           (Writev fd packet).
Proof. intros K tr. reflexivity. Qed.

Lemma writev_retries fd packet K tr k e fuel :
  interrupted_then K tr (Writev fd packet) k e ->
  (k < fuel)%nat ->
  writev fuel fd packet K tr =
    Returns (len (concat packet), errnoErr e)
            (tr ++ replicate (S k) (Writev fd packet)).
Proof.
  intros Hk Hfuel. unfold writev, bind at 1.
  now rewrite (handleEINTR_retries _ _ K k tr e fuel
                 (one_call_Writev fd packet) Hk Hfuel).
Qed.

(** ** The Linux writer *)

Section LinuxWriter.
Variable serializeHeader : request -> Z -> list byte.

(** Lines 37-41 on their own. *)
Lemma write_flat_data fuel ms req K tr k e :
  flatDataSize req <> 0 ->
  fdData req = None ->
  interrupted_then K tr (Writev (mountFd ms) [outputBuf req; flatData req]) k e ->
  (k < fuel)%nat ->
  server_linux.systemWrite serializeHeader fuel ms req K tr =
    Returns (req, ToStatus (errnoErr e))
      (tr ++ replicate (S k) (Writev (mountFd ms) [outputBuf req; flatData req])
          ++ doneEvents req).
Proof.
  intros Hsz Hfd Hk Hfuel. unfold server_linux.systemWrite.
  destruct (decide (flatDataSize req = 0)) as [|_]; [contradiction|].
  rewrite Hfd. unfold bind at 1.
  rewrite (writev_retries _ _ K tr k e fuel Hk Hfuel).
  unfold doneEvents. destruct (readResult req) as [rr|]; simpl.
  - unfold bind, call, ret. simpl. now rewrite <- !app_assoc.
  - unfold bind, ret. now rewrite app_nil_r.
Qed.

(** Lines 14-19 on their own. *)
Lemma write_header_only fuel ms req K tr k e :
  flatDataSize req = 0 ->
  interrupted_then K tr (Write (mountFd ms) (outputBuf req)) k e ->
  (k < fuel)%nat ->
  server_linux.systemWrite serializeHeader fuel ms req K tr =
    Returns (req, ToStatus (errnoErr e))
      (tr ++ replicate (S k) (Write (mountFd ms) (outputBuf req))).
Proof.
  intros Hsz Hk Hfuel. unfold server_linux.systemWrite.
  destruct (decide (flatDataSize req = 0)) as [_|]; [|contradiction].
  unfold bind at 1.
  now rewrite (handleEINTR_retries _ _ K k tr e fuel
                 (one_call_Write _ _) Hk Hfuel).
Qed.

Lemma len_replicate_uint32 (x : Z) (b : byte) :
  len (replicate (Z.to_nat (uint32 x)) b) = uint32 x.
Proof.
  unfold len, uint32. rewrite length_replicate.
  apply Z2Nat.id. apply Z.mod_pos_bound. lia.
Qed.

(** Lines 31-41, reached when the splice is not tried or fails. *)
Lemma read_then_writev fuel ms req f K tr pre k e :
  flatDataSize req <> 0 ->
  fdData req = Some f ->
  (if canSplice ms
   then errno (K tr (TrySplice (mountFd ms) (outputBuf req) f)) <> 0 /\
        pre = [TrySplice (mountFd ms) (outputBuf req) f;
               Println "trySplice:"
                 (errno (K tr (TrySplice (mountFd ms) (outputBuf req) f)))]
   else pre = []) ->
  let alloc := AllocOut (uint32 (Sz f)) in
  let pread := Pread (Fd f) (Z.min (Sz f) (uint32 (Sz f))) (Off f) in
  let r := K (tr ++ pre ++ [alloc]) pread in
  let data := take (Z.to_nat (Z.min (Sz f) (uint32 (Sz f)))) (out r) in
  let req1 := set_status (set_flatData req data)
                         (ToStatus (errnoErr (errno r))) in
  let req2 := set_outputBuf req1 (serializeHeader req1 (len data)) in
  let wv := Writev (mountFd ms) [outputBuf req2; data] in
  interrupted_then K (tr ++ pre ++ [alloc; pread]) wv k e ->
  (k < fuel)%nat ->
  server_linux.systemWrite serializeHeader fuel ms req K tr =
    Returns (req2, ToStatus (errnoErr e))
      (tr ++ pre ++ [alloc; pread] ++ replicate (S k) wv ++ doneEvents req).
Proof.
  intros Hsz Hfd Hpre alloc pread r data req1 req2 wv Hk Hfuel.
  assert (Hsz' : flatDataSize req = Sz f) by (unfold flatDataSize; now rewrite Hfd).
  assert (Htail : forall tr0, tr0 = tr ++ pre ->
    (buf <- allocOut ms req (uint32 (flatDataSize req)) ;;
     res <- Bytes f buf ;;
     (let req := set_status (set_flatData req (fst res)) (snd res) in
      let req := set_outputBuf req
                   (serializeHeader req (len (flatData req))) in
      res <- writev fuel (mountFd ms) [outputBuf req; flatData req] ;;
      (if decide (readResult req = None) then ret tt
       else Done (readResult req)) ;;;
      ret (req, ToStatus (snd res)))) K tr0 =
    Returns (req2, ToStatus (errnoErr e))
      (tr ++ pre ++ [alloc; pread] ++ replicate (S k) wv ++ doneEvents req)).
  { intros tr0 ->. rewrite Hsz'.
    unfold allocOut, Bytes, bind at 1 2 3 4 5, call at 1 2, ret at 1 2.
    rewrite len_replicate_uint32. cbv zeta. cbn [fst snd].
    replace ((tr ++ pre) ++ [AllocOut (uint32 (Sz f))])
      with (tr ++ pre ++ [alloc]) by now rewrite <- app_assoc.
    fold pread r data req1. cbv zeta.
    change (set_outputBuf req1 (serializeHeader req1 (len (flatData req1))))
      with req2.
    change (flatData req2) with data.
    unfold bind at 1.
    replace ((tr ++ pre ++ [alloc]) ++ [pread])
      with (tr ++ pre ++ [alloc; pread])
      by (rewrite <- !app_assoc; reflexivity).
    fold wv. rewrite (writev_retries _ _ K _ k e fuel Hk Hfuel).
    change (readResult req2) with (readResult req).
    unfold doneEvents. destruct (readResult req) as [rr|]; simpl.
    - unfold bind, call, ret. simpl. f_equal.
      rewrite <- !app_assoc. reflexivity.
    - unfold bind, ret. f_equal. rewrite app_nil_r.
      rewrite <- !app_assoc. reflexivity. }
  unfold server_linux.systemWrite.
  destruct (decide (flatDataSize req = 0)) as [|_]; [contradiction|].
  rewrite Hfd. cbv zeta. destruct (canSplice ms).
  - destruct Hpre as [Hfail ->]. unfold trySplice, bind at 1 2, call at 1, ret at 1.
    unfold errnoErr at 1.
    destruct (Z.eqb_spec (errno (K tr (TrySplice (mountFd ms) (outputBuf req) f))) 0)
      as [|_]; [contradiction|].
    unfold bind at 1, call at 1.
    apply Htail. now rewrite <- app_assoc.
  - subst pre. apply Htail. now rewrite app_nil_r.
Qed.
End LinuxWriter.

(** ** C1: the splice fallback *)

(** C1, as stated, fails: a reply with an fd-backed payload of size zero,
    on a server that did not negotiate splicing, is written as the bare
    header with one write(2); no run reads the payload or issues a writev. *)
Lemma systemWrite_fd_payload_of_size_zero_counterexample :
  let ms := MkServer 3 false in
  let req := fd_request 0 in
  fdData req <> None /\ canSplice ms = false /\
  (forall fuel,
     server_linux.systemWrite header_with_length (S fuel) ms req K_ok [] =
       Returns (req, OK) [Write 3 [Byte.x10; Byte.x00]]) /\
  ~ (exists fuel res tr iov,
       server_linux.systemWrite header_with_length fuel ms req K_ok [] =
         Returns res tr /\ In (Writev 3 iov) tr).
Proof.
  assert (H : forall fuel,
     server_linux.systemWrite header_with_length (S fuel) (MkServer 3 false)
       (fd_request 0) K_ok [] =
     Returns (fd_request 0, OK) [Write 3 [Byte.x10; Byte.x00]])
    by (intros fuel; reflexivity).
  cbv zeta. split; [discriminate|]. split; [reflexivity|]. split; [exact H|].
  intros (fuel & res & tr & iov & Hrun & Hin).
  destruct fuel as [|fuel]; [discriminate Hrun|].
  rewrite H in Hrun. injection Hrun as _ <-.
  destruct Hin as [Hin|[]]. discriminate Hin.
Qed.

(** C1, amended: for a reply with an fd-backed payload and a non-zero flat
    data size, when splicing was not negotiated or the splice attempt fails,
    [systemWrite] acquires a pool buffer of the payload size, reads the
    payload into it, re-serializes the header with the length of the bytes
    actually read, and issues one writev of (header, data) on the mount fd
    (repeated while interrupted); the status returned is that of the
    writev. *)
Theorem systemWrite_falls_back_to_writev
    (serializeHeader : request -> Z -> list byte)
    fuel ms req f K tr k e :
  fdData req = Some f ->
  flatDataSize req <> 0 ->
  canSplice ms = false \/
    errno (K tr (TrySplice (mountFd ms) (outputBuf req) f)) <> 0 ->
  let pre := spliceEvents ms req f K tr in
  let alloc := AllocOut (uint32 (Sz f)) in
  let pread := Pread (Fd f) (Z.min (Sz f) (uint32 (Sz f))) (Off f) in
  let r := K (tr ++ pre ++ [alloc]) pread in
  let data := take (Z.to_nat (Z.min (Sz f) (uint32 (Sz f)))) (out r) in
  let req1 := set_status (set_flatData req data)
                         (ToStatus (errnoErr (errno r))) in
  let header := serializeHeader req1 (len data) in
  let wv := Writev (mountFd ms) [header; data] in
  interrupted_then K (tr ++ pre ++ [alloc; pread]) wv k e ->
  (k < fuel)%nat ->
  server_linux.systemWrite serializeHeader fuel ms req K tr =
    Returns (set_outputBuf req1 header, ToStatus (errnoErr e))
      (tr ++ pre ++ [alloc; pread] ++ replicate (S k) wv ++ doneEvents req).
Proof.
  intros Hfd Hsz Hsplice pre alloc pread r data req1 header wv Hk Hfuel.
  apply (read_then_writev serializeHeader fuel ms req f K tr pre k e);
    try assumption.
  subst pre. unfold spliceEvents.
  destruct (canSplice ms); [|reflexivity].
  destruct Hsplice as [|Hfail]; [discriminate|]. now split.
Qed.

Lemma systemWrite_falls_back_to_writev_witness :
  server_linux.systemWrite header_with_length 3 (MkServer 3 true)
    (fd_request 2) (K_intr 5) [] =
  Returns
    (Request [Byte.x10; Byte.x00] [] (Some (fd_payload 2))
       (Some (readResultFdOf (fd_payload 2))) EINTR, OK)
    [TrySplice 3 [Byte.x10; Byte.x00] (fd_payload 2);
     Println "trySplice:" EINTR; AllocOut 2; Pread 9 2 0;
     Writev 3 [[Byte.x10; Byte.x00]; []];
     Writev 3 [[Byte.x10; Byte.x00]; []];
     ReadResultDone (readResultFdOf (fd_payload 2))].
Proof.
  apply (systemWrite_falls_back_to_writev header_with_length 3
           (MkServer 3 true) (fd_request 2) (fd_payload 2) (K_intr 5) []
           1%nat 0).
  - reflexivity.
  - discriminate.
  - right. discriminate.
  - repeat split; [|discriminate].
    intros i Hi. assert (i = 0%nat) as -> by lia. reflexivity.
  - lia.
Defined.

(** ** C2: EINTR on the mount fd *)

(** C2: on each path of [systemWrite] that writes the reply with write(2) or
    writev(2), a write interrupted [k] times is issued [k + 1] times, and
    the status returned is that of the first attempt that is not EINTR
    (success or another errno): for the single-buffer write of a reply with
    no flat data, for the writev of a reply with flat data, and for the
    writev that follows reading an fd-backed payload into a buffer. *)
Theorem systemWrite_retries_EINTR
    (serializeHeader : request -> Z -> list byte)
    fuel ms req K tr k e :
  (k < fuel)%nat ->
  (flatDataSize req = 0 ->
   let w := Write (mountFd ms) (outputBuf req) in
   interrupted_then K tr w k e ->
   server_linux.systemWrite serializeHeader fuel ms req K tr =
     Returns (req, ToStatus (errnoErr e)) (tr ++ replicate (S k) w)) /\
  (flatDataSize req <> 0 -> fdData req = None ->
   let wv := Writev (mountFd ms) [outputBuf req; flatData req] in
   interrupted_then K tr wv k e ->
   server_linux.systemWrite serializeHeader fuel ms req K tr =
     Returns (req, ToStatus (errnoErr e))
       (tr ++ replicate (S k) wv ++ doneEvents req)) /\
  (forall f,
   flatDataSize req <> 0 -> fdData req = Some f ->
   canSplice ms = false \/
     errno (K tr (TrySplice (mountFd ms) (outputBuf req) f)) <> 0 ->
   let pre := spliceEvents ms req f K tr in
   let alloc := AllocOut (uint32 (Sz f)) in
   let pread := Pread (Fd f) (Z.min (Sz f) (uint32 (Sz f))) (Off f) in
   let r := K (tr ++ pre ++ [alloc]) pread in
   let data := take (Z.to_nat (Z.min (Sz f) (uint32 (Sz f)))) (out r) in
   let req1 := set_status (set_flatData req data)
                          (ToStatus (errnoErr (errno r))) in
   let req2 := set_outputBuf req1 (serializeHeader req1 (len data)) in
   let wv := Writev (mountFd ms) [outputBuf req2; flatData req2] in
   interrupted_then K (tr ++ pre ++ [alloc; pread]) wv k e ->
   server_linux.systemWrite serializeHeader fuel ms req K tr =
     Returns (req2, ToStatus (errnoErr e))
       (tr ++ pre ++ [alloc; pread] ++ replicate (S k) wv ++ doneEvents req)).
Proof.
  intros Hfuel. split; [|split].
  - intros Hsz w Hk. now apply write_header_only.
  - intros Hsz Hfd wv Hk. now apply write_flat_data.
  - intros f Hsz Hfd Hsplice pre alloc pread r data req1 req2 wv Hk.
    apply (read_then_writev serializeHeader fuel ms req f K tr pre k e);
      try assumption.
    subst pre. unfold spliceEvents.
    destruct (canSplice ms); [|reflexivity].
    destruct Hsplice as [|Hfail]; [discriminate|]. now split.
Qed.

Lemma systemWrite_retries_EINTR_witness :
  server_linux.systemWrite header_with_length 3 (MkServer 3 true)
    (fd_request 0) (K_intr 2) [] =
    Returns (fd_request 0, OK)
      [Write 3 [Byte.x10; Byte.x00]; Write 3 [Byte.x10; Byte.x00];
       Write 3 [Byte.x10; Byte.x00]] /\
  server_linux.systemWrite header_with_length 3 (MkServer 3 true)
    (flat_request [Byte.x61]) (K_intr 2) [] =
    Returns (flat_request [Byte.x61], OK)
      [Writev 3 [[Byte.x10; Byte.x00]; [Byte.x61]];
       Writev 3 [[Byte.x10; Byte.x00]; [Byte.x61]];
       Writev 3 [[Byte.x10; Byte.x00]; [Byte.x61]];
       ReadResultDone (readResultData [Byte.x61])] /\
  server_linux.systemWrite header_with_length 3 (MkServer 3 false)
    (fd_request 2) (K_intr 3) [] =
    Returns
      (Request [Byte.x10; Byte.x00] [] (Some (fd_payload 2))
         (Some (readResultFdOf (fd_payload 2))) EINTR, OK)
      [AllocOut 2; Pread 9 2 0;
       Writev 3 [[Byte.x10; Byte.x00]; []];
       Writev 3 [[Byte.x10; Byte.x00]; []];
       ReadResultDone (readResultFdOf (fd_payload 2))].
Proof.
  split; [|split].
  - apply (proj1 (systemWrite_retries_EINTR header_with_length 3
                    (MkServer 3 true) (fd_request 0) (K_intr 2) [] 2%nat 0
                    ltac:(lia))).
    + reflexivity.
    + split; [|split; [reflexivity|discriminate]].
      intros [|[|i]] Hi; [reflexivity|reflexivity|lia].
  - apply (proj1 (proj2 (systemWrite_retries_EINTR header_with_length 3
                    (MkServer 3 true) (flat_request [Byte.x61]) (K_intr 2) []
                    2%nat 0 ltac:(lia)))).
    + discriminate.
    + reflexivity.
    + split; [|split; [reflexivity|discriminate]].
      intros [|[|i]] Hi; [reflexivity|reflexivity|lia].
  - apply (proj2 (proj2 (systemWrite_retries_EINTR header_with_length 3
                    (MkServer 3 false) (fd_request 2) (K_intr 3) []
                    1%nat 0 ltac:(lia))) (fd_payload 2)).
    + discriminate.
    + reflexivity.
    + left. reflexivity.
    + split; [|split; [reflexivity|discriminate]].
      intros [|i] Hi; [reflexivity|lia].
Defined.

(** ** C9: the two writers *)

Lemma interrupted_then_cons {E} (K : Kernel E) tr ev k e :
  errno (K tr ev) = EINTR ->
  interrupted_then K (tr ++ [ev]) ev k e ->
  interrupted_then K tr ev (S k) e.
Proof.
  intros H0 (Hi & He & Hne). repeat split; [| |exact Hne].
  - intros [|i] Hlt; simpl.
    + now rewrite app_nil_r.
    + specialize (Hi i ltac:(lia)). now rewrite <- app_assoc in Hi.
  - simpl. now rewrite <- app_assoc in He.
Qed.

(** A retry loop that returns was interrupted finitely often. *)
Lemma handleEINTR_returns {E} (fn : M E error) (ev : E) K :
  forall fuel tr err tr',
  one_call fn ev ->
  handleEINTR fuel fn K tr = Returns err tr' ->
  exists k e, (k < fuel)%nat /\ interrupted_then K tr ev k e /\
              err = errnoErr e /\ tr' = tr ++ replicate (S k) ev.
Proof.
  induction fuel as [|fuel IH]; intros tr err tr' Hfn Hrun; [discriminate|].
  simpl in Hrun. unfold bind in Hrun. rewrite Hfn in Hrun.
  destruct (decide (errnoErr (errno (K tr ev)) = Some EINTR)) as [Heq|Hne].
  - apply errnoErr_EINTR in Heq.
    destruct (IH _ _ _ Hfn Hrun) as (k & e & Hlt & Hk & -> & ->).
    exists (S k), e.
    split; [lia|]. split; [|split; [reflexivity|]].
    + apply (interrupted_then_cons K tr ev k e Heq Hk).
    + now rewrite <- app_assoc.
  - injection Hrun as <- <-. exists 0%nat, (errno (K tr ev)).
    split; [lia|]. split; [|split; reflexivity].
    split; [|split].
    + intros i Hi. lia.
    + simpl. now rewrite app_nil_r.
    + intros Heq. apply Hne. now apply errnoErr_EINTR.
Qed.

Lemma countDone_app evs1 evs2 :
  countDone (evs1 ++ evs2) = (countDone evs1 + countDone evs2)%nat.
Proof. unfold countDone. now rewrite List.filter_app, length_app. Qed.

Lemma countDone_replicate_not_done n ev :
  isDone ev = false -> countDone (replicate n ev) = 0%nat.
Proof.
  intros H. unfold countDone. induction n as [|n IH]; [reflexivity|].
  simpl. now rewrite H.
Qed.

Lemma countDone_doneEvents req :
  countDone (doneEvents req) =
    if decide (readResult req = None) then 0%nat else 1%nat.
Proof. unfold doneEvents. now destruct (readResult req). Qed.

Section TwoWriters.
Variable serializeHeader : request -> Z -> list byte.

Lemma unix_matches_linux fuel ms req K tr :
  canSplice ms = false ->
  server_unix.systemWrite serializeHeader fuel ms req K tr =
  server_linux.systemWrite serializeHeader fuel ms req K tr.
Proof.
  intros Hns. unfold server_unix.systemWrite, server_linux.systemWrite.
  destruct (decide (flatDataSize req = 0)); [reflexivity|].
  destruct (fdData req) as [f|]; [|reflexivity].
  rewrite Hns. reflexivity.
Qed.

(** The shape of every returning run of the [!linux] writer. *)
Lemma unix_returns fuel ms req K tr res tr' :
  server_unix.systemWrite serializeHeader fuel ms req K tr = Returns res tr' ->
  exists (k : nat) (e : Z) (pre : list event) (w : event),
    tr' = tr ++ pre ++ replicate (S k) w ++
          (if decide (flatDataSize req = 0) then [] else doneEvents req) /\
    snd res = ToStatus (errnoErr e) /\ e <> EINTR /\
    countDone pre = 0%nat /\ isDone w = false /\
    (if decide (flatDataSize req = 0)
     then pre = [] /\ w = Write (mountFd ms) (outputBuf req) /\ fst res = req
     else w = Writev (mountFd ms) [outputBuf (fst res); flatData (fst res)] /\
          match fdData req with
          | None => pre = [] /\ fst res = req
          | Some f =>
              pre = [AllocOut (uint32 (Sz f));
                     Pread (Fd f) (Z.min (Sz f) (uint32 (Sz f))) (Off f)] /\
              exists data st,
                let req1 := set_status (set_flatData req data) st in
                fst res = set_outputBuf req1 (serializeHeader req1 (len data))
          end).
Proof.
  unfold server_unix.systemWrite.
  destruct (decide (flatDataSize req = 0)) as [Hz|Hnz].
  - unfold bind at 1.
    destruct (handleEINTR fuel _ K tr) as [err tr1| |] eqn:Hloop;
      [|discriminate|discriminate].
    intros Hrun. injection Hrun as <- <-.
    destruct (handleEINTR_returns _ _ K fuel tr err tr1
                (one_call_Write _ _) Hloop) as (k & e & _ & Hk & -> & ->).
    exists k, e, [], (Write (mountFd ms) (outputBuf req)).
    rewrite app_nil_r. simpl. repeat split; try reflexivity. apply Hk.
  - assert (Hfinish : forall req' tr0 pre,
      tr0 = tr ++ pre -> readResult req' = readResult req ->
      (res <- writev fuel (mountFd ms) [outputBuf req'; flatData req'] ;;
       (if decide (readResult req' = None) then ret tt
        else Done (readResult req')) ;;;
       ret (req', ToStatus (snd res))) K tr0 = Returns res tr' ->
      exists (k : nat) (e : Z),
        tr' = tr ++ pre ++ replicate (S k)
                (Writev (mountFd ms) [outputBuf req'; flatData req'])
                ++ doneEvents req /\
        snd res = ToStatus (errnoErr e) /\ e <> EINTR /\ fst res = req').
    { intros req' tr0 pre -> Hrr. unfold bind at 1, writev, bind at 1.
      destruct (handleEINTR fuel _ K (tr ++ pre)) as [err tr1| |] eqn:Hloop;
        [|discriminate|discriminate].
      destruct (handleEINTR_returns _ _ K fuel _ err tr1
                  (one_call_Writev _ _) Hloop) as (k & e & _ & Hk & -> & ->).
      unfold ret at 1. cbn [snd]. unfold doneEvents. rewrite Hrr.
      destruct (readResult req) as [rr|]; simpl;
        unfold bind, call, ret; simpl; intros Hrun;
        injection Hrun as <- <-; exists k, e; cbn [fst snd];
        (split; [|split; [reflexivity|split; [apply Hk|reflexivity]]]).
      - now rewrite <- !app_assoc.
      - now rewrite app_nil_r, <- !app_assoc. }
    destruct (fdData req) as [f|] eqn:Hfd.
    + assert (Hsz : flatDataSize req = Sz f)
        by (unfold flatDataSize; now rewrite Hfd).
      rewrite Hsz.
      unfold allocOut, Bytes, bind at 1 2 3 4 5, call at 1 2, ret at 1 2 3.
      rewrite len_replicate_uint32. cbv zeta. cbn [fst snd].
      intros Hrun.
      apply (Hfinish _ _ [AllocOut (uint32 (Sz f));
               Pread (Fd f) (Z.min (Sz f) (uint32 (Sz f))) (Off f)])
        in Hrun as (k & e & -> & Hst & Hne & Hres);
        [|now rewrite <- !app_assoc|reflexivity].
      exists k, e, [AllocOut (uint32 (Sz f));
               Pread (Fd f) (Z.min (Sz f) (uint32 (Sz f))) (Off f)],
        (Writev (mountFd ms) [outputBuf (fst res); flatData (fst res)]).
      rewrite Hres. cbn [outputBuf flatData set_outputBuf set_status
                           set_flatData fdData readResult status].
      repeat split; try reflexivity; try assumption.
      eexists _, _. reflexivity.
    + unfold bind at 1, ret at 1. intros Hrun.
      apply (Hfinish _ _ []) in Hrun as (k & e & -> & Hst & Hne & Hres);
        [|now rewrite app_nil_r|reflexivity].
      exists k, e, [],
        (Writev (mountFd ms) [outputBuf (fst res); flatData (fst res)]).
      rewrite Hres. repeat split; try reflexivity; assumption.
Qed.
End TwoWriters.

(** C9, as stated, fails on its last clause: a reply that has a read result
    but no flat data (a read at end of file) is written by both writers as
    the bare header, and neither calls [Done]. *)
Lemma systemWrite_no_flat_data_never_done_counterexample :
  let ms := MkServer 3 false in
  let req := flat_request [] in
  readResult req <> None /\
  server_linux.systemWrite header_with_length 1 ms req K_ok [] =
    Returns (req, OK) [Write 3 [Byte.x10; Byte.x00]] /\
  server_unix.systemWrite header_with_length 1 ms req K_ok [] =
    Returns (req, OK) [Write 3 [Byte.x10; Byte.x00]] /\
  countDone [Write 3 [Byte.x10; Byte.x00]] = 0%nat.
Proof. cbv zeta. split; [discriminate|]. repeat split. Qed.

(** C9, amended: with splicing disabled the Linux writer and the [!linux]
    writer are the same function of the request, the environment and the
    history: same events, same result. A run that returns wrote the bare
    output buffer when there is no flat data, and never called [Done];
    otherwise it read an fd-backed payload (if any) into a pool buffer,
    re-serialized the header at the length read, issued the writev of
    (header, data), and called [Done] exactly once when a read result is
    present. When the environment does not interrupt, every run with fuel
    returns. *)
Theorem systemWrite_unix_equals_linux_without_splice
    (serializeHeader : request -> Z -> list byte)
    fuel ms req K tr :
  canSplice ms = false ->
  server_unix.systemWrite serializeHeader fuel ms req K tr =
    server_linux.systemWrite serializeHeader fuel ms req K tr /\
  (forall res tr',
    server_linux.systemWrite serializeHeader fuel ms req K tr =
      Returns res tr' ->
    exists k : nat,
      (flatDataSize req = 0 ->
       fst res = req /\
       emitted tr tr' = replicate (S k) (Write (mountFd ms) (outputBuf req)) /\
       countDone (emitted tr tr') = 0%nat) /\
      (flatDataSize req <> 0 ->
       emitted tr tr' =
         match fdData req with
         | None => []
         | Some f => [AllocOut (uint32 (Sz f));
                      Pread (Fd f) (Z.min (Sz f) (uint32 (Sz f))) (Off f)]
         end ++
         replicate (S k)
           (Writev (mountFd ms) [outputBuf (fst res); flatData (fst res)]) ++
         doneEvents req /\
       match fdData req with
       | None => fst res = req
       | Some f =>
           outputBuf (fst res) =
             serializeHeader
               (set_status (set_flatData req (flatData (fst res)))
                           (status (fst res)))
               (len (flatData (fst res)))
       end /\
       countDone (emitted tr tr') =
         if decide (readResult req = None) then 0%nat else 1%nat)) /\
  ((forall h ev, errno (K h ev) <> EINTR) -> (0 < fuel)%nat ->
   exists res tr',
     server_linux.systemWrite serializeHeader fuel ms req K tr =
       Returns res tr').
Proof.
  intros Hns. split; [now apply unix_matches_linux|]. split; cycle 1.
  { intros Hbenign Hfuel.
    assert (Hnow : forall h ev,
              interrupted_then K h ev 0 (errno (K h ev))).
    { intros h ev. split; [intros i Hi; lia|]. split; [|apply Hbenign].
      simpl. now rewrite app_nil_r. }
    destruct (decide (flatDataSize req = 0)) as [Hz|Hnz].
    - eexists _, _. apply (write_header_only _ fuel ms req K tr 0);
        [exact Hz|apply Hnow|exact Hfuel].
    - destruct (fdData req) as [f|] eqn:Hfd.
      + eexists _, _.
        apply (read_then_writev _ fuel ms req f K tr [] 0);
          [exact Hnz|exact Hfd|now rewrite Hns|apply Hnow|exact Hfuel].
      + eexists _, _. apply (write_flat_data _ fuel ms req K tr 0);
          [exact Hnz|exact Hfd|apply Hnow|exact Hfuel]. }
  intros res tr'. rewrite <- (unix_matches_linux _ _ _ _ _ _ Hns).
  intros Hrun.
  destruct (unix_returns _ _ _ _ _ _ _ _ Hrun)
    as (k & e & pre & w & -> & _ & _ & Hpre & Hw & Hshape).
  exists k. unfold emitted. rewrite drop_app_length.
  destruct (decide (flatDataSize req = 0)) as [Hz|Hnz].
  - destruct Hshape as (-> & -> & Hres).
    split; [|intros Hnz; contradiction]. intros _.
    rewrite app_nil_r. cbn [app]. split; [exact Hres|]. split; [reflexivity|].
    now apply countDone_replicate_not_done.
  - split; [intros Hz; contradiction|]. intros _.
    destruct Hshape as (-> & Hfd).
    assert (Hcount : forall pre0, countDone pre0 = 0%nat ->
      countDone (pre0 ++ replicate (S k)
         (Writev (mountFd ms) [outputBuf (fst res); flatData (fst res)])
         ++ doneEvents req) =
      if decide (readResult req = None) then 0%nat else 1%nat).
    { intros pre0 H0. rewrite !countDone_app, H0.
      rewrite countDone_replicate_not_done by reflexivity.
      now rewrite countDone_doneEvents. }
    destruct (fdData req) as [f|].
    + destruct Hfd as (-> & data & st & Hres). cbv zeta in Hres.
      split; [reflexivity|]. split; [|now apply Hcount].
      rewrite Hres. reflexivity.
    + destruct Hfd as (-> & Hres).
      split; [reflexivity|]. split; [exact Hres|now apply Hcount].
Qed.

Lemma systemWrite_unix_equals_linux_without_splice_witness :
  let ms := MkServer 3 false in
  let done := ReadResultDone (readResultFdOf (fd_payload 2)) in
  server_unix.systemWrite header_with_length 3 ms (fd_request 2) (K_intr 3) [] =
    server_linux.systemWrite header_with_length 3 ms (fd_request 2) (K_intr 3) [] /\
  exists k : nat,
    [AllocOut 2; Pread 9 2 0;
     Writev 3 [[Byte.x10; Byte.x00]; []];
     Writev 3 [[Byte.x10; Byte.x00]; []]; done] =
    [AllocOut 2; Pread 9 2 0] ++
      replicate (S k) (Writev 3 [[Byte.x10; Byte.x00]; []]) ++ [done] /\
    countDone [AllocOut 2; Pread 9 2 0;
               Writev 3 [[Byte.x10; Byte.x00]; []];
               Writev 3 [[Byte.x10; Byte.x00]; []]; done] = 1%nat.
Proof.
  cbv zeta.
  pose proof (systemWrite_unix_equals_linux_without_splice
                header_with_length 3 (MkServer 3 false) (fd_request 2)
                (K_intr 3) [] eq_refl) as (Heq & Hshape & _).
  split; [exact Heq|].
  destruct (Hshape _ _ eq_refl) as [k [_ Hflat]].
  destruct (Hflat ltac:(discriminate)) as (Hev & _ & Hrepl).
  exists k. split; [exact Hev|exact Hrepl].
Defined.

(** ** C3: the single-reader toggle *)

Lemma single_reader_stays_single s s' :
  reader_steps s s' ->
  singleReader s = true -> reqReaders s = 1%nat ->
  singleReader s' = true /\ reqReaders s' = 1%nat.
Proof.
  induction 1 as [s|s1 s2 s3 _ IH Hstep]; intros Hsingle Hone; [now split|].
  destruct (IH Hsingle Hone) as [Hs2 Hr2].
  destruct Hstep as [s Hoff _]. congruence.
Qed.

(** C3: in a build for a target that does not satisfy the [linux] tag (the
    BSDs, Darwin) the toggle [useSingleReader] is [true], and every session
    such a build can reach has exactly one reader; in a build that satisfies
    [linux] the toggle is [false]. *)
Theorem useSingleReader_iff_not_linux (goos : GOOS) :
  (satisfies goos linux = false ->
   useSingleReader goos = true /\
   forall maxReaders s,
     reader_steps (NewServer goos maxReaders) s -> reqReaders s = 1%nat) /\
  (satisfies goos linux = true -> useSingleReader goos = false).
Proof.
  unfold useSingleReader, server_unix_constraint. cbn [eval].
  split; intros Htag; rewrite Htag; cbn [negb]; [|reflexivity].
  split; [reflexivity|]. intros n s Hsteps.
  apply (single_reader_stays_single _ _ Hsteps); [|reflexivity].
  unfold NewServer, useSingleReader, server_unix_constraint. cbn [eval].
  now rewrite Htag.
Qed.

Lemma useSingleReader_iff_not_linux_witness :
  (useSingleReader darwin = true /\ reqReaders (NewServer darwin 4) = 1%nat) /\
  useSingleReader linux = false.
Proof.
  split.
  - destruct (proj1 (useSingleReader_iff_not_linux darwin) eq_refl)
      as [Htoggle Hone].
    split; [exact Htoggle|].
    apply (Hone 4%nat (NewServer darwin 4)). apply reader_steps_refl.
  - apply (proj2 (useSingleReader_iff_not_linux linux)). reflexivity.
Defined.

(** On Linux the session can reach several readers: the toggle is what
    keeps the other builds at one. *)
Lemma linux_reaches_two_readers :
  reader_steps (NewServer linux 4) (Readers false 4 2).
Proof.
  eapply reader_steps_step; [apply reader_steps_refl|].
  apply (reader_spawn (NewServer linux 4)); [reflexivity|simpl; lia].
Qed.

(** ** C10 and C5: the poll hack *)

Section PollHackFacts.
Import poll_darwin.
Variable pollHackName : string.
Variable filepath_Join : string -> string -> string.

Lemma pollHack_cases mountPoint K tr :
  let probe := SYS_OPEN (filepath_Join mountPoint pollHackName) O_RDONLY 0 in
  let e := errno (K tr probe) in
  let fd := r1 (K tr probe) in
  (e = EPERM ->
   pollHack pollHackName filepath_Join mountPoint K tr =
     Returns None (tr ++ [probe])) /\
  (e <> 0 -> e <> EPERM ->
   pollHack pollHackName filepath_Join mountPoint K tr =
     Returns (Some e) (tr ++ [probe])) /\
  (e = 0 ->
   pollHack pollHackName filepath_Join mountPoint K tr =
     Returns None
       (tr ++ [probe; SYS_POLL [PollFd (int32 fd) 7 0] 0; SYS_CLOSE fd])).
Proof.
  intros probe e fd. unfold pollHack, syscall_Open, bind, call.
  cbn beta iota. fold probe. fold e. fold fd.
  split; [|split].
  - intros He. rewrite He. reflexivity.
  - intros H0 Hperm. destruct (Z.eqb_spec e 0) as [|_]; [contradiction|].
    unfold ret at 1. cbn [fst snd].
    case_decide as Heq; [congruence|].
    case_decide as Hn; [reflexivity|discriminate Hn].
  - intros He. rewrite He. cbn.
    case_decide as Heq; [discriminate Heq|].
    case_decide as Hn; [now destruct Hn|].
    unfold ret. now rewrite <- !app_assoc.
Qed.
End PollHackFacts.

(** C10: [pollHack] returns nil when the open of the probe file fails with
    EPERM; it returns the error when the open fails with any other errno;
    and when the open succeeds it polls the descriptor and closes it before
    it returns nil. *)
Theorem pollHack_open_outcomes
    (pollHackName : string) (filepath_Join : string -> string -> string)
    mountPoint K tr :
  let probe := poll_darwin.SYS_OPEN (filepath_Join mountPoint pollHackName)
                 poll_darwin.O_RDONLY 0 in
  let e := errno (K tr probe) in
  let fd := r1 (K tr probe) in
  (e = EPERM ->
   poll_darwin.pollHack pollHackName filepath_Join mountPoint K tr =
     Returns None (tr ++ [probe])) /\
  (e <> 0 -> e <> EPERM ->
   poll_darwin.pollHack pollHackName filepath_Join mountPoint K tr =
     Returns (Some e) (tr ++ [probe])) /\
  (e = 0 ->
   poll_darwin.pollHack pollHackName filepath_Join mountPoint K tr =
     Returns None
       (tr ++ [probe;
               poll_darwin.SYS_POLL
                 [poll_darwin.PollFd (poll_darwin.int32 fd) 7 0] 0;
               poll_darwin.SYS_CLOSE fd])).
Proof. apply pollHack_cases. Qed.

Lemma pollHack_open_outcomes_witness :
  let pollHack := poll_darwin.pollHack ".go-fuse-epoll-hack"
                    poll_darwin.join_with_slash "/mnt" in
  let probe := poll_darwin.SYS_OPEN "/mnt/.go-fuse-epoll-hack" 0 0 in
  pollHack (poll_darwin.K_open_fails EPERM) [] = Returns None [probe] /\
  pollHack (poll_darwin.K_open_fails 2) [] = Returns (Some 2) [probe] /\
  pollHack poll_darwin.K_open_ok [] =
    Returns None
      [probe; poll_darwin.SYS_POLL [poll_darwin.PollFd 5 7 0] 0;
       poll_darwin.SYS_CLOSE 5].
Proof.
  cbv zeta. split; [|split].
  - apply (proj1 (pollHack_open_outcomes ".go-fuse-epoll-hack"
             poll_darwin.join_with_slash "/mnt"
             (poll_darwin.K_open_fails EPERM) [])).
    reflexivity.
  - apply (proj1 (proj2 (pollHack_open_outcomes ".go-fuse-epoll-hack"
             poll_darwin.join_with_slash "/mnt"
             (poll_darwin.K_open_fails 2) []))); discriminate.
  - apply (proj2 (proj2 (pollHack_open_outcomes ".go-fuse-epoll-hack"
             poll_darwin.join_with_slash "/mnt" poll_darwin.K_open_ok []))).
    reflexivity.
Defined.

(** C5, as stated, fails: when the open of the probe file is denied with
    EPERM, [pollHack] returns nil, so the mount completes, and it has issued
    no poll: no POLL request was elicited and none was answered. *)
Lemma pollHack_EPERM_elicits_no_POLL_counterexample :
  poll_darwin.pollHack ".go-fuse-epoll-hack" poll_darwin.join_with_slash
    "/mnt" (poll_darwin.K_open_fails EPERM) [] =
    Returns None [poll_darwin.SYS_OPEN "/mnt/.go-fuse-epoll-hack" 0 0] /\
  poll_darwin.pollReplies
    [poll_darwin.SYS_OPEN "/mnt/.go-fuse-epoll-hack" 0 0] = [].
Proof. split; reflexivity. Qed.

(** C5, amended: when the open of the probe file succeeds, [pollHack]
    returns nil after it issued exactly one poll on the probe descriptor
    (for POLLIN, POLLPRI and POLLOUT) and closed it, so that exactly one
    POLL request was elicited and answered ENOSYS before the mount
    completes. And whenever [pollHack] returns nil, either that happened, or
    the open was denied with EPERM and nothing else was done. *)
Theorem pollHack_POLL_answered_before_return
    (pollHackName : string) (filepath_Join : string -> string -> string)
    mountPoint K tr :
  let probe := poll_darwin.SYS_OPEN (filepath_Join mountPoint pollHackName)
                 poll_darwin.O_RDONLY 0 in
  let fd := r1 (K tr probe) in
  let polled :=
    [probe;
     poll_darwin.SYS_POLL [poll_darwin.PollFd (poll_darwin.int32 fd) 7 0] 0;
     poll_darwin.SYS_CLOSE fd] in
  (errno (K tr probe) = 0 ->
   poll_darwin.pollHack pollHackName filepath_Join mountPoint K tr =
     Returns None (tr ++ polled) /\
   poll_darwin.pollReplies polled = [poll_darwin.ENOSYS]) /\
  (forall tr',
   poll_darwin.pollHack pollHackName filepath_Join mountPoint K tr =
     Returns None tr' ->
   (errno (K tr probe) = EPERM /\ emitted tr tr' = [probe] /\
    poll_darwin.pollReplies (emitted tr tr') = []) \/
   (errno (K tr probe) = 0 /\ emitted tr tr' = polled /\
    poll_darwin.pollReplies (emitted tr tr') = [poll_darwin.ENOSYS])).
Proof.
  intros probe fd polled.
  destruct (pollHack_cases pollHackName filepath_Join mountPoint K tr)
    as (Hperm & Hother & Hok).
  fold probe in Hperm, Hother, Hok. fold fd in Hok. fold polled in Hok.
  split; [intros H0; split; [exact (Hok H0)|reflexivity]|].
  intros tr' Hrun.
  destruct (decide (errno (K tr probe) = EPERM)) as [He|Hne].
  - left. rewrite (Hperm He) in Hrun. injection Hrun as <-.
    unfold emitted. rewrite drop_app_length. now repeat split.
  - destruct (decide (errno (K tr probe) = 0)) as [H0|Hn0].
    + right. rewrite (Hok H0) in Hrun. injection Hrun as <-.
      unfold emitted. rewrite drop_app_length. now repeat split.
    + rewrite (Hother Hn0 Hne) in Hrun. discriminate Hrun.
Qed.

Lemma pollHack_POLL_answered_before_return_witness :
  let polled :=
    [poll_darwin.SYS_OPEN "/mnt/.go-fuse-epoll-hack" 0 0;
     poll_darwin.SYS_POLL [poll_darwin.PollFd 5 7 0] 0;
     poll_darwin.SYS_CLOSE 5] in
  poll_darwin.pollHack ".go-fuse-epoll-hack" poll_darwin.join_with_slash
    "/mnt" poll_darwin.K_open_ok [] = Returns None polled /\
  poll_darwin.pollReplies polled = [poll_darwin.ENOSYS].
Proof.
  cbv zeta.
  destruct (pollHack_POLL_answered_before_return ".go-fuse-epoll-hack"
              poll_darwin.join_with_slash "/mnt" poll_darwin.K_open_ok [])
    as [Hok Hinv].
  destruct (Hok eq_refl) as [Hrun Hreplies].
  split; [exact Hrun|].
  destruct (Hinv _ Hrun) as [(Hperm & _)|(_ & _ & Hrep)].
  - discriminate Hperm.
  - exact Hrep.
Defined.

(** ** C8: the xattr shims on empty buffers *)

(** C8 does not hold of the code: for a path and an attribute name without
    NUL bytes, [GetXAttr] with an empty [dest] and [Setxattr] with empty
    [data] panic on [&dest[0]] / [&data[0]] before any system call is made
    ([listxattr] guards the same expression with [len(dest) > 0]); and
    [ListXAttr] panics on [dest[:sz-1]] when listxattr reports size 0
    without error. None of the three returns a (result, errno) value. *)
Theorem xattr_shims_panic_on_empty
    (path attr : string) (fuel : nat) (flags : Z) (spare : list byte)
    (K : Kernel xattr.event) (tr : list xattr.event) :
  xattr.hasNUL path = false ->
  xattr.hasNUL attr = false ->
  xattr.GetXAttr fuel path attr (xattr.Slice [] spare) K tr =
    Panics "index out of range [0] with length 0" tr /\
  xattr.Setxattr path attr (xattr.Slice [] spare) flags K tr =
    Panics "index out of range [0] with length 0" tr /\
  (r1 (K tr (xattr.SYS_LISTXATTR path 0)) = 0 ->
   errno (K tr (xattr.SYS_LISTXATTR path 0)) = 0 ->
   xattr.ListXAttr fuel path K tr =
     Panics "slice bounds out of range" (tr ++ [xattr.SYS_LISTXATTR path 0])).
Proof.
  intros Hpath Hattr. split; [|split].
  - unfold xattr.GetXAttr, xattr.getxattr, xattr.BytePtrFromString, bind.
    now rewrite Hpath, Hattr.
  - unfold xattr.Setxattr, xattr.BytePtrFromString. now rewrite Hpath, Hattr.
  - intros Hsz Herr.
    unfold xattr.ListXAttr, xattr.listxattr, xattr.BytePtrFromString.
    rewrite Hpath. unfold bind at 1 2, call at 1, ret at 1.
    change (len (xattr.elems (xattr.make 0))) with 0.
    cbn [fst snd]. rewrite Hsz, Herr.
    change (int_of_uintptr 0) with 0.
    case_decide as Hd; [now destruct Hd|].
    destruct fuel; reflexivity.
Qed.

Lemma xattr_shims_panic_on_empty_witness :
  xattr.GetXAttr 3 "/mnt/f" "user.a" (xattr.make 0) xattr.K_no_attributes [] =
    Panics "index out of range [0] with length 0" [] /\
  xattr.Setxattr "/mnt/f" "user.a" (xattr.make 0) 0 xattr.K_no_attributes [] =
    Panics "index out of range [0] with length 0" [] /\
  xattr.ListXAttr 3 "/mnt/f" xattr.K_no_attributes [] =
    Panics "slice bounds out of range" [xattr.SYS_LISTXATTR "/mnt/f" 0].
Proof.
  destruct (xattr_shims_panic_on_empty "/mnt/f" "user.a" 3 0 []
              xattr.K_no_attributes [] eq_refl eq_refl) as (Hget & Hset & Hlist).
  split; [exact Hget|]. split; [exact Hset|].
  exact (Hlist eq_refl eq_refl).
Defined.

(** With buffers that are not empty the shims do return: the defect is
    confined to the empty cases. *)
Lemma ListXAttr_two_attributes :
  xattr.ListXAttr 3 "/mnt/f" xattr.K_two_attributes [] =
    Returns (Some ["user.a"; "user.b"]%string, 0)
      [xattr.SYS_LISTXATTR "/mnt/f" 0; xattr.SYS_LISTXATTR "/mnt/f" 14].
Proof. reflexivity. Qed.

(** * Further properties of the code *)

(** ** The xattr shims: argument checks and results *)

Lemma BytePtrFromString_NUL s :
  xattr.hasNUL s = true -> xattr.BytePtrFromString s = inr EINVAL.
Proof. intros H. unfold xattr.BytePtrFromString. now rewrite H. Qed.

Lemma BytePtrFromString_ok s :
  xattr.hasNUL s = false ->
  xattr.BytePtrFromString s = inl (String.list_byte_of_string s ++ [Byte.x00]).
Proof. intros H. unfold xattr.BytePtrFromString. now rewrite H. Qed.

Lemma getxattr_NUL path attr dest K tr :
  xattr.hasNUL path = true \/ xattr.hasNUL attr = true ->
  xattr.getxattr path attr dest K tr = Returns (0, EINVAL, dest) tr.
Proof.
  intros Hnul. unfold xattr.getxattr.
  destruct (xattr.hasNUL path) eqn:Hp.
  - now rewrite (BytePtrFromString_NUL path Hp).
  - rewrite (BytePtrFromString_ok path Hp).
    destruct Hnul as [Hn|Hn]; [discriminate|].
    now rewrite (BytePtrFromString_NUL attr Hn).
Qed.

Lemma GetXAttr_loop_stops fuel path attr dest sz e K tr :
  sz <= xattr.cap dest \/ e <> 0 ->
  xattr.GetXAttr_loop fuel path attr dest sz e K tr = Returns (sz, e, dest) tr.
Proof.
  intros Hstop.
  assert (Hc : (sz >? xattr.cap dest) && (e =? 0) = false).
  { destruct Hstop as [Hle|Hne].
    - destruct (Z.gtb_spec sz (xattr.cap dest)); [lia|reflexivity].
    - destruct (Z.eqb_spec e 0); [contradiction|]. apply andb_false_r. }
  destruct fuel; simpl; now rewrite Hc.
Qed.

Lemma ListXAttr_loop_stops fuel path dest sz e K tr :
  sz <= xattr.cap dest \/ e <> 0 ->
  xattr.ListXAttr_loop fuel path dest sz e K tr = Returns (sz, e, dest) tr.
Proof.
  intros Hstop.
  assert (Hc : (sz >? xattr.cap dest) && (e =? 0) = false).
  { destruct Hstop as [Hle|Hne].
    - destruct (Z.gtb_spec sz (xattr.cap dest)); [lia|reflexivity].
    - destruct (Z.eqb_spec e 0); [contradiction|]. apply andb_false_r. }
  destruct fuel; simpl; now rewrite Hc.
Qed.

(** X1: a path or an attribute name that holds a NUL byte is refused with
    EINVAL before anything else is done: no system call is issued, and an
    empty buffer is not touched. *)
Theorem xattr_shims_refuse_NUL
    (path attr : string) (dest data : xattr.slice) (flags : Z) (fuel : nat)
    (K : Kernel xattr.event) (tr : list xattr.event)
    (K' : Kernel removexattr.event) (tr' : list removexattr.event) :
  xattr.hasNUL path = true \/ xattr.hasNUL attr = true ->
  xattr.GetXAttr fuel path attr dest K tr = Returns (None, EINVAL) tr /\
  xattr.Setxattr path attr data flags K tr = Returns EINVAL tr /\
  removexattr.Removexattr path attr K' tr' = Returns EINVAL tr' /\
  (xattr.hasNUL path = true ->
   xattr.ListXAttr fuel path K tr = Returns (None, EINVAL) tr).
Proof.
  intros Hnul. split; [|split; [|split]].
  - unfold xattr.GetXAttr, bind at 1 2. rewrite (getxattr_NUL _ _ _ _ _ Hnul).
    cbn [fst snd]. rewrite GetXAttr_loop_stops by (right; discriminate).
    cbn [fst snd]. case_decide as Hd; [reflexivity|]. discriminate Hd.
  - unfold xattr.Setxattr. destruct (xattr.hasNUL path) eqn:Hp.
    + now rewrite (BytePtrFromString_NUL path Hp).
    + rewrite (BytePtrFromString_ok path Hp).
      destruct Hnul as [Hn|Hn]; [discriminate|].
      now rewrite (BytePtrFromString_NUL attr Hn).
  - unfold removexattr.Removexattr. destruct (xattr.hasNUL path) eqn:Hp.
    + now rewrite (BytePtrFromString_NUL path Hp).
    + rewrite (BytePtrFromString_ok path Hp).
      destruct Hnul as [Hn|Hn]; [discriminate|].
      now rewrite (BytePtrFromString_NUL attr Hn).
  - intros Hp. unfold xattr.ListXAttr, xattr.listxattr, bind at 1.
    rewrite (BytePtrFromString_NUL path Hp). unfold ret at 1. cbn [fst snd].
    case_decide as Hd; [reflexivity|]. discriminate Hd.
Qed.

Lemma xattr_shims_refuse_NUL_witness :
  xattr.GetXAttr 0 (String Ascii.zero "/mnt/f") "user.a" (xattr.make 0)
    xattr.K_no_attributes [] = Returns (None, EINVAL) [] /\
  xattr.Setxattr "/mnt/f" (String Ascii.zero "") (xattr.make 0) 0
    xattr.K_no_attributes [] = Returns EINVAL [].
Proof.
  split.
  - apply (xattr_shims_refuse_NUL (String Ascii.zero "/mnt/f") "user.a"
             (xattr.make 0) (xattr.make 0) 0 0 xattr.K_no_attributes []
             (fun _ _ => SysRet 0 0 []) []).
    left. reflexivity.
  - apply (xattr_shims_refuse_NUL "/mnt/f" (String Ascii.zero "")
             (xattr.make 0) (xattr.make 0) 0 0 xattr.K_no_attributes []
             (fun _ _ => SysRet 0 0 []) []).
    right. reflexivity.
Defined.

Lemma int_of_uintptr_small x : 0 <= x < 2 ^ 63 -> int_of_uintptr x = x.
Proof.
  intros Hx. unfold int_of_uintptr.
  rewrite Z.mod_small by lia.
  destruct (Z.ltb_spec x (2 ^ 63)); [reflexivity|lia].
Qed.

Lemma stored_length dest bytes :
  length (xattr.elems (xattr.stored dest bytes)) = length (xattr.elems dest).
Proof.
  unfold xattr.stored. cbn [xattr.elems]. rewrite length_take, length_app, length_drop.
  lia.
Qed.

Lemma stored_cap dest bytes : xattr.cap (xattr.stored dest bytes) = xattr.cap dest.
Proof.
  unfold xattr.cap, len. rewrite !length_app, stored_length. reflexivity.
Qed.

Lemma stored_prefix_of dest bytes :
  (length bytes <= length (xattr.elems dest))%nat ->
  take (length bytes) (xattr.elems (xattr.stored dest bytes) ++ xattr.spare dest)
    = bytes.
Proof.
  intros Hle. rewrite take_app_le by (rewrite stored_length; exact Hle).
  unfold xattr.stored. cbn [xattr.elems]. rewrite take_take.
  rewrite Nat.min_l by exact Hle. apply take_app_length.
Qed.

Lemma make_cap n : 0 <= n -> xattr.cap (xattr.make n) = n.
Proof.
  intros Hn. unfold xattr.cap, xattr.make, len. cbn [xattr.elems xattr.spare].
  rewrite app_nil_r, length_replicate. lia.
Qed.

Lemma make_len n : 0 <= n -> len (xattr.elems (xattr.make n)) = n.
Proof.
  intros Hn. unfold xattr.make, len. cbn [xattr.elems].
  rewrite length_replicate. lia.
Qed.

(** One getxattr(2) on a buffer that is not empty. *)
Lemma getxattr_call path attr dest K tr :
  xattr.hasNUL path = false -> xattr.hasNUL attr = false ->
  xattr.elems dest <> [] ->
  let ev := xattr.SYS_GETXATTR path attr (len (xattr.elems dest)) in
  xattr.getxattr path attr dest K tr =
    Returns (int_of_uintptr (r1 (K tr ev)), int_of_uintptr (errno (K tr ev)),
             xattr.stored dest (out (K tr ev))) (tr ++ [ev]).
Proof.
  intros Hp Ha Hne ev. unfold xattr.getxattr.
  rewrite (BytePtrFromString_ok _ Hp), (BytePtrFromString_ok _ Ha).
  destruct (xattr.elems dest) as [|b l] eqn:He; [contradiction|].
  reflexivity.
Qed.

(** X2: with names free of NUL and a buffer that is not empty, when
    getxattr fails, [GetXAttr] returns a nil value and the errno of the
    call, after that one system call. *)
Theorem GetXAttr_reports_errno
    (path attr : string) (dest : xattr.slice) (fuel : nat)
    (K : Kernel xattr.event) (tr : list xattr.event) :
  xattr.hasNUL path = false -> xattr.hasNUL attr = false ->
  xattr.elems dest <> [] ->
  let ev := xattr.SYS_GETXATTR path attr (len (xattr.elems dest)) in
  int_of_uintptr (errno (K tr ev)) <> 0 ->
  xattr.GetXAttr fuel path attr dest K tr =
    Returns (None, int_of_uintptr (errno (K tr ev))) (tr ++ [ev]).
Proof.
  intros Hp Ha Hne ev Herr. unfold xattr.GetXAttr, bind at 1 2.
  rewrite (getxattr_call _ _ _ K tr Hp Ha Hne). fold ev. cbn [fst snd].
  rewrite GetXAttr_loop_stops by (right; exact Herr). cbn [fst snd].
  case_decide as Hd; [reflexivity|contradiction].
Qed.

Lemma GetXAttr_reports_errno_witness :
  xattr.GetXAttr 0 "/mnt/f" "user.a" (xattr.make 4) (K_fails 61) [] =
    Returns (None, 61) [xattr.SYS_GETXATTR "/mnt/f" "user.a" 4].
Proof.
  apply (GetXAttr_reports_errno "/mnt/f" "user.a" (xattr.make 4) 0
           (K_fails 61) []); try reflexivity; discriminate.
Defined.

(** X3: when the value fits the buffer, [GetXAttr] returns exactly the
    bytes that getxattr stored, with errno 0, after one system call. *)
Theorem GetXAttr_value_fits
    (path attr : string) (dest : xattr.slice) (v : list byte) (fuel : nat)
    (K : Kernel xattr.event) (tr : list xattr.event) :
  xattr.hasNUL path = false -> xattr.hasNUL attr = false ->
  xattr.elems dest <> [] ->
  (length v <= length (xattr.elems dest))%nat -> len v < 2 ^ 63 ->
  let ev := xattr.SYS_GETXATTR path attr (len (xattr.elems dest)) in
  errno (K tr ev) = 0 -> r1 (K tr ev) = len v -> out (K tr ev) = v ->
  xattr.GetXAttr fuel path attr dest K tr = Returns (Some v, 0) (tr ++ [ev]).
Proof.
  intros Hp Ha Hne Hfit Hsmall ev Herr Hsz Hout.
  unfold xattr.GetXAttr, bind at 1 2.
  rewrite (getxattr_call _ _ _ K tr Hp Ha Hne). fold ev.
  rewrite Herr, Hsz, Hout. cbn [fst snd].
  assert (Hpos : 0 <= len v) by (unfold len; lia).
  rewrite (int_of_uintptr_small (len v)) by lia.
  change (int_of_uintptr 0) with 0.
  assert (Hcap : len v <= xattr.cap (xattr.stored dest v)).
  { rewrite stored_cap. unfold xattr.cap, len. rewrite length_app. lia. }
  rewrite GetXAttr_loop_stops by (left; exact Hcap). cbn [fst snd].
  case_decide as Hd; [now destruct Hd|].
  unfold xattr.reslice.
  destruct (Z.leb_spec 0 (len v)); [|lia].
  destruct (Z.leb_spec (len v) (xattr.cap (xattr.stored dest v))); [|lia].
  cbn [andb xattr.elems]. unfold len at 1. rewrite Nat2Z.id.
  change (xattr.spare (xattr.stored dest v)) with (xattr.spare dest).
  now rewrite stored_prefix_of.
Qed.

Lemma GetXAttr_value_fits_witness :
  xattr.GetXAttr 0 "/mnt/f" "user.a" (xattr.make 4) K_value_abc [] =
    Returns (Some [Byte.x61; Byte.x62; Byte.x63], 0)
      [xattr.SYS_GETXATTR "/mnt/f" "user.a" 4].
Proof.
  apply (GetXAttr_value_fits "/mnt/f" "user.a" (xattr.make 4)
           [Byte.x61; Byte.x62; Byte.x63] 0 K_value_abc []);
    try reflexivity; try discriminate.
  - simpl. lia.
Defined.

Lemma GetXAttr_loop_step fuel path attr dest sz e :
  xattr.cap dest < sz -> e = 0 ->
  xattr.GetXAttr_loop (S fuel) path attr dest sz e =
    (res <- xattr.getxattr path attr (xattr.make sz) ;;
     xattr.GetXAttr_loop fuel path attr (snd res) (fst (fst res)) (snd (fst res))).
Proof.
  intros Hgt ->. simpl.
  destruct (Z.gtb_spec sz (xattr.cap dest)); [reflexivity|lia].
Qed.

Lemma cap_nonneg dest : 0 <= xattr.cap dest.
Proof. unfold xattr.cap, len. lia. Qed.

Lemma make_not_empty n : 0 < n -> xattr.elems (xattr.make n) <> [].
Proof.
  intros Hn. unfold xattr.make. cbn [xattr.elems].
  destruct (Z.to_nat n) eqn:Hz; [lia|discriminate].
Qed.

(** X4: when getxattr reports a size beyond the capacity of the buffer,
    [GetXAttr] calls it once more with a fresh buffer of exactly the
    reported size, and returns the value that this second call stores. *)
Theorem GetXAttr_retries_with_reported_size
    (path attr : string) (dest : xattr.slice) (n : Z) (v : list byte)
    (fuel : nat) (K : Kernel xattr.event) (tr : list xattr.event) :
  xattr.hasNUL path = false -> xattr.hasNUL attr = false ->
  xattr.elems dest <> [] ->
  let probe := xattr.SYS_GETXATTR path attr (len (xattr.elems dest)) in
  let fetch := xattr.SYS_GETXATTR path attr n in
  errno (K tr probe) = 0 -> r1 (K tr probe) = n ->
  xattr.cap dest < n < 2 ^ 63 ->
  errno (K (tr ++ [probe]) fetch) = 0 ->
  r1 (K (tr ++ [probe]) fetch) = len v ->
  out (K (tr ++ [probe]) fetch) = v ->
  len v <= n ->
  xattr.GetXAttr (S fuel) path attr dest K tr =
    Returns (Some v, 0) (tr ++ [probe; fetch]).
Proof.
  intros Hp Ha Hne probe fetch Herr1 Hsz1 Hn Herr2 Hsz2 Hout2 Hfit.
  pose proof (cap_nonneg dest) as Hcap0.
  assert (Hpos : 0 <= len v) by (unfold len; lia).
  unfold xattr.GetXAttr, bind at 1 2.
  rewrite (getxattr_call _ _ _ K tr Hp Ha Hne). fold probe.
  rewrite Herr1, Hsz1. cbn [fst snd].
  rewrite (int_of_uintptr_small n) by lia. change (int_of_uintptr 0) with 0.
  rewrite GetXAttr_loop_step by (rewrite ?stored_cap; lia || reflexivity).
  unfold bind at 1.
  rewrite (getxattr_call _ _ _ K _ Hp Ha (make_not_empty n ltac:(lia))).
  rewrite make_len by lia. fold fetch. rewrite Herr2, Hsz2, Hout2.
  cbn [fst snd]. rewrite (int_of_uintptr_small (len v)) by lia.
  change (int_of_uintptr 0) with 0.
  assert (Hcap : xattr.cap (xattr.stored (xattr.make n) v) = n)
    by (rewrite stored_cap; apply make_cap; lia).
  rewrite GetXAttr_loop_stops by (left; lia). cbn [fst snd].
  case_decide as Hd; [now destruct Hd|].
  unfold xattr.reslice. rewrite Hcap.
  destruct (Z.leb_spec 0 (len v)); [|lia].
  destruct (Z.leb_spec (len v) n); [|lia].
  cbn [andb xattr.elems]. unfold len at 1. rewrite Nat2Z.id.
  change (xattr.spare (xattr.stored (xattr.make n) v))
    with (xattr.spare (xattr.make n)).
  rewrite stored_prefix_of; [now rewrite <- app_assoc|].
  unfold xattr.make. cbn [xattr.elems]. rewrite length_replicate.
  unfold len in Hfit. lia.
Qed.

Lemma GetXAttr_retries_with_reported_size_witness :
  xattr.GetXAttr 1 "/mnt/f" "user.a" (xattr.make 1) K_value_abc [] =
    Returns (Some [Byte.x61; Byte.x62; Byte.x63], 0)
      [xattr.SYS_GETXATTR "/mnt/f" "user.a" 1;
       xattr.SYS_GETXATTR "/mnt/f" "user.a" 3].
Proof.
  apply (GetXAttr_retries_with_reported_size "/mnt/f" "user.a" (xattr.make 1)
           3 [Byte.x61; Byte.x62; Byte.x63] 0 K_value_abc []);
    try reflexivity; try discriminate.
  vm_compute. split; reflexivity.
Defined.

(** The calls of the loop of [GetXAttr]: all on the same names, each with a
    buffer larger than the one before. *)
Lemma GetXAttr_loop_returns path attr K : forall fuel dest sz e tr res tr',
  xattr.GetXAttr_loop fuel path attr dest sz e K tr = Returns res tr' ->
  exists evs,
    tr' = tr ++ evs /\
    Forall (isGetxattr path attr) evs /\
    Forall (fun size => xattr.cap dest < size) (getxattrSizes evs) /\
    StronglySorted Z.lt (getxattrSizes evs).
Proof.
  induction fuel as [|fuel IH]; intros dest sz e tr res tr' Hrun.
  - exists []. simpl in Hrun.
    destruct ((sz >? xattr.cap dest) && (e =? 0)); [discriminate|].
    injection Hrun as _ <-. rewrite app_nil_r.
    repeat split; constructor.
  - destruct (Z.gtb_spec sz (xattr.cap dest)) as [Hgt|Hle];
      [destruct (Z.eqb_spec e 0) as [He|Hne]|].
    + rewrite GetXAttr_loop_step in Hrun by lia. unfold bind at 1 in Hrun.
      pose proof (cap_nonneg dest) as Hcap0.
      destruct (xattr.hasNUL path) eqn:Hp;
        [|destruct (xattr.hasNUL attr) eqn:Ha].
      * rewrite getxattr_NUL in Hrun by now left. cbn [fst snd] in Hrun.
        rewrite GetXAttr_loop_stops in Hrun by (right; discriminate).
        injection Hrun as _ <-. exists []. rewrite app_nil_r.
        repeat split; constructor.
      * rewrite getxattr_NUL in Hrun by now right. cbn [fst snd] in Hrun.
        rewrite GetXAttr_loop_stops in Hrun by (right; discriminate).
        injection Hrun as _ <-. exists []. rewrite app_nil_r.
        repeat split; constructor.
      * rewrite (getxattr_call _ _ _ K tr Hp Ha (make_not_empty sz ltac:(lia)))
          in Hrun.
        rewrite make_len in Hrun by lia. cbn [fst snd] in Hrun.
        apply IH in Hrun as (evs & -> & Hget & Hbig & Hsorted).
        rewrite stored_cap, make_cap in Hbig by lia.
        exists (xattr.SYS_GETXATTR path attr sz :: evs).
        split; [now rewrite <- app_assoc|]. split; [|split].
        -- constructor; [now exists sz|exact Hget].
        -- cbn. constructor; [lia|].
           eapply Forall_impl; [exact Hbig|]. cbn. intros; lia.
        -- cbn. constructor; assumption.
    + rewrite GetXAttr_loop_stops in Hrun by now right.
      injection Hrun as _ <-. exists []. rewrite app_nil_r.
      repeat split; constructor.
    + rewrite GetXAttr_loop_stops in Hrun by (left; lia).
      injection Hrun as _ <-. exists []. rewrite app_nil_r.
      repeat split; constructor.
Qed.

(** X5: every run of [GetXAttr] that returns has issued nothing but
    getxattr calls on the given path and attribute, each with a strictly
    larger buffer than the call before; and it returns a value exactly when
    it returns errno 0. *)
Theorem GetXAttr_buffers_grow
    (path attr : string) (dest : xattr.slice) (fuel : nat)
    (K : Kernel xattr.event) (tr tr' : list xattr.event)
    (value : option (list byte)) (e : Z) :
  xattr.GetXAttr fuel path attr dest K tr = Returns (value, e) tr' ->
  exists evs,
    tr' = tr ++ evs /\
    Forall (isGetxattr path attr) evs /\
    StronglySorted Z.lt (getxattrSizes evs) /\
    (value = None <-> e <> 0).
Proof.
  unfold xattr.GetXAttr, bind at 1. intros Hrun.
  assert (Hlast : forall sz e0 d (tr1 : list xattr.event),
    (if decide (e0 <> 0) then ret (None, e0)
     else match xattr.reslice d sz with
          | Some value => ret (Some (xattr.elems value), e0)
          | None => panic "slice bounds out of range"
          end) K tr1 = Returns (value, e) tr' ->
    tr' = tr1 /\ (value = None <-> e <> 0)).
  { intros sz e0 d tr1. case_decide as Hd.
    - intros Heq. injection Heq as <- <- <-. now split.
    - destruct (xattr.reslice d sz); [|discriminate].
      intros Heq. injection Heq as <- <- <-.
      split; [reflexivity|]. split; [discriminate|]. intros He. lia. }
  destruct (xattr.getxattr path attr dest K tr) as [[[sz0 e0] d0] tr0| |]
    eqn:Hfirst; [|discriminate|discriminate].
  unfold bind at 1 in Hrun. cbn [fst snd] in Hrun.
  destruct (xattr.GetXAttr_loop fuel path attr d0 sz0 e0 K tr0)
    as [[[sz1 e1] d1] tr1| |] eqn:Hloop; [|discriminate|discriminate].
  cbn [fst snd] in Hrun. apply Hlast in Hrun as [-> Hiff].
  apply GetXAttr_loop_returns in Hloop as (evs & -> & Hget & Hbig & Hsorted).
  destruct (xattr.hasNUL path) eqn:Hp; [|destruct (xattr.hasNUL attr) eqn:Ha].
  - rewrite getxattr_NUL in Hfirst by now left. injection Hfirst as _ _ _ <-.
    now exists evs.
  - rewrite getxattr_NUL in Hfirst by now right. injection Hfirst as _ _ _ <-.
    now exists evs.
  - destruct (xattr.elems dest) as [|b l] eqn:Hel.
    + unfold xattr.getxattr in Hfirst.
      rewrite (BytePtrFromString_ok _ Hp), (BytePtrFromString_ok _ Ha), Hel
        in Hfirst. discriminate Hfirst.
    + rewrite (getxattr_call _ _ _ K tr Hp Ha) in Hfirst
        by (rewrite Hel; discriminate).
      injection Hfirst as _ _ <- <-. rewrite stored_cap in Hbig.
      exists (xattr.SYS_GETXATTR path attr (len (xattr.elems dest)) :: evs).
      split; [now rewrite <- app_assoc|]. split; [|split; [|exact Hiff]].
      * constructor; [eexists; reflexivity|exact Hget].
      * cbn. constructor; [exact Hsorted|].
        eapply Forall_impl; [exact Hbig|]. cbn. intros size Hsize.
        unfold xattr.cap, len in *. rewrite length_app in Hsize. lia.
Qed.

Lemma GetXAttr_buffers_grow_witness :
  StronglySorted Z.lt
    (getxattrSizes [xattr.SYS_GETXATTR "/mnt/f" "user.a" 1;
                    xattr.SYS_GETXATTR "/mnt/f" "user.a" 3]).
Proof.
  destruct (GetXAttr_buffers_grow "/mnt/f" "user.a" (xattr.make 1) 1
              K_value_abc [] _ _ _ eq_refl) as (evs & Hevs & _ & Hsorted & _).
  cbn [app] in Hevs. subst evs. exact Hsorted.
Defined.

(** ** The xattr shims: listing *)

Lemma list_byte_of_string_cons c s :
  String.list_byte_of_string (String c s) =
    Ascii.byte_of_ascii c :: String.list_byte_of_string s.
Proof. reflexivity. Qed.

Lemma hasNUL_bytes s :
  xattr.hasNUL s = false -> ~ In Byte.x00 (String.list_byte_of_string s).
Proof.
  induction s as [|c s IH]; intros Hnul; [intros []|].
  simpl in Hnul. destruct (Ascii.eqb_spec c Ascii.zero) as [|Hc]; [discriminate|].
  rewrite list_byte_of_string_cons. intros [Hhead|Htail].
  - apply Hc. rewrite <- (Ascii.ascii_of_byte_of_ascii c), Hhead. reflexivity.
  - now apply IH.
Qed.

Lemma bytes_Split_no_sep (l : list byte) :
  ~ In Byte.x00 l -> xattr.bytes_Split l Byte.x00 = [l].
Proof.
  induction l as [|b l IH]; intros Hnot; [reflexivity|]. simpl.
  destruct (Byte.eqb b Byte.x00) eqn:Hb.
  - apply Byte.byte_dec_bl in Hb. exfalso. apply Hnot. now left.
  - rewrite IH; [reflexivity|]. intros Hin. apply Hnot. now right.
Qed.

Lemma bytes_Split_app_sep (l r : list byte) :
  ~ In Byte.x00 l ->
  xattr.bytes_Split (l ++ Byte.x00 :: r) Byte.x00 =
    l :: xattr.bytes_Split r Byte.x00.
Proof.
  induction l as [|b l IH]; intros Hnot; [reflexivity|]. simpl.
  destruct (Byte.eqb b Byte.x00) eqn:Hb.
  - apply Byte.byte_dec_bl in Hb. exfalso. apply Hnot. now left.
  - rewrite IH; [reflexivity|]. intros Hin. apply Hnot. now right.
Qed.

Lemma nameList_cons name names :
  nameList (name :: names) =
    String.list_byte_of_string name ++ Byte.x00 :: nameList names.
Proof. unfold nameList. simpl. now rewrite <- app_assoc. Qed.

(** Splitting the list without its last NUL gives back the names. *)
Lemma bytes_Split_nameList (names : list string) :
  names <> [] ->
  Forall (fun name => xattr.hasNUL name = false) names ->
  xattr.bytes_Split
    (take (length (nameList names) - 1) (nameList names)) Byte.x00 =
    map String.list_byte_of_string names.
Proof.
  induction names as [|name names IH]; intros Hne Hall; [contradiction|].
  apply Forall_cons in Hall as [Hname Hall].
  apply hasNUL_bytes in Hname. rewrite nameList_cons.
  destruct names as [|name2 names].
  - unfold nameList. simpl. rewrite length_app. simpl.
    replace (length (String.list_byte_of_string name) + 1 - 1)%nat
      with (length (String.list_byte_of_string name)) by lia.
    rewrite take_app_length. now apply bytes_Split_no_sep.
  - specialize (IH ltac:(discriminate) Hall).
    set (rest := nameList (name2 :: names)) in *.
    assert (Hrest : (0 < length rest)%nat).
    { subst rest. rewrite nameList_cons, length_app. simpl. lia. }
    rewrite length_app. simpl length.
    match goal with
    | |- context [take ?n (?l ++ _ :: _)] =>
        replace n with (length l + S (length rest - 1))%nat
          by (unfold byte in *; lia)
    end.
    rewrite take_app_add. simpl take.
    rewrite bytes_Split_app_sep by exact Hname. simpl map. now rewrite IH.
Qed.

Lemma map_string_of_list_byte (names : list string) :
  map String.string_of_list_byte (map String.list_byte_of_string names) = names.
Proof.
  induction names as [|name names IH]; [reflexivity|]. simpl.
  now rewrite String.string_of_list_byte_of_string, IH.
Qed.

Lemma stored_exact dest bytes :
  length bytes = length (xattr.elems dest) ->
  xattr.elems (xattr.stored dest bytes) = bytes.
Proof.
  intros Hlen. unfold xattr.stored. cbn [xattr.elems].
  rewrite drop_ge by lia. rewrite app_nil_r, <- Hlen. apply take_ge. lia.
Qed.

(** One listxattr(2). *)
Lemma listxattr_call path dest K tr :
  xattr.hasNUL path = false ->
  let ev := xattr.SYS_LISTXATTR path (len (xattr.elems dest)) in
  xattr.listxattr path dest K tr =
    Returns (int_of_uintptr (r1 (K tr ev)), int_of_uintptr (errno (K tr ev)),
             xattr.stored dest (out (K tr ev))) (tr ++ [ev]).
Proof.
  intros Hp ev. unfold xattr.listxattr. now rewrite (BytePtrFromString_ok _ Hp).
Qed.

Lemma ListXAttr_loop_step fuel path dest sz e :
  xattr.cap dest < sz -> e = 0 ->
  xattr.ListXAttr_loop (S fuel) path dest sz e =
    (res <- xattr.listxattr path (xattr.make sz) ;;
     xattr.ListXAttr_loop fuel path (snd res) (fst (fst res)) (snd (fst res))).
Proof.
  intros Hgt ->. simpl.
  destruct (Z.gtb_spec sz (xattr.cap dest)); [reflexivity|lia].
Qed.

(** The probe and the fetch of [ListXAttr], when the probe reports a
    positive size. *)
Lemma ListXAttr_probe_fetch path n fuel K tr :
  xattr.hasNUL path = false ->
  let probe := xattr.SYS_LISTXATTR path 0 in
  let fetch := xattr.SYS_LISTXATTR path n in
  let r := K (tr ++ [probe]) fetch in
  errno (K tr probe) = 0 -> r1 (K tr probe) = n -> 0 < n < 2 ^ 63 ->
  int_of_uintptr (r1 r) <= n \/ int_of_uintptr (errno r) <> 0 ->
  xattr.ListXAttr (S fuel) path K tr =
    match xattr.reslice (xattr.stored (xattr.make n) (out r))
                        (int_of_uintptr (r1 r) - 1) with
    | None => Panics "slice bounds out of range" (tr ++ [probe; fetch])
    | Some dest =>
        Returns
          (Some (map String.string_of_list_byte
                   (xattr.bytes_Split (xattr.elems dest) Byte.x00)),
           int_of_uintptr (errno r))
          (tr ++ [probe; fetch])
    end.
Proof.
  intros Hp probe fetch r Herr Hsz Hn Hstop.
  unfold xattr.ListXAttr, bind at 1.
  rewrite (listxattr_call _ _ K tr Hp).
  change (len (xattr.elems (xattr.make 0))) with 0. fold probe.
  rewrite Herr, Hsz. cbn [fst snd]. change (int_of_uintptr 0) with 0.
  case_decide as Hd; [now destruct Hd|].
  rewrite (int_of_uintptr_small n) by lia. unfold bind at 1.
  rewrite ListXAttr_loop_step;
    [|rewrite stored_cap; change (xattr.cap (xattr.make 0)) with 0; lia
     |reflexivity].
  unfold bind at 1. rewrite (listxattr_call _ _ K _ Hp).
  rewrite make_len by lia. fold fetch. fold r. cbn [fst snd].
  rewrite ListXAttr_loop_stops
    by (rewrite stored_cap, make_cap by lia; exact Hstop).
  cbn [fst snd]. rewrite <- app_assoc.
  destruct (xattr.reslice _ _); reflexivity.
Qed.

(** X6: when the first listxattr fails, [ListXAttr] returns a nil list and
    the errno of the call, after that one system call. *)
Theorem ListXAttr_reports_errno
    (path : string) (fuel : nat)
    (K : Kernel xattr.event) (tr : list xattr.event) :
  xattr.hasNUL path = false ->
  let probe := xattr.SYS_LISTXATTR path 0 in
  int_of_uintptr (errno (K tr probe)) <> 0 ->
  xattr.ListXAttr fuel path K tr =
    Returns (None, int_of_uintptr (errno (K tr probe))) (tr ++ [probe]).
Proof.
  intros Hp probe Herr. unfold xattr.ListXAttr, bind at 1.
  rewrite (listxattr_call _ _ K tr Hp).
  change (len (xattr.elems (xattr.make 0))) with 0. fold probe.
  cbn [fst snd]. case_decide as Hd; [reflexivity|contradiction].
Qed.

Lemma ListXAttr_reports_errno_witness :
  xattr.ListXAttr 0 "/mnt/f" (K_fails 13) [] =
    Returns (None, 13) [xattr.SYS_LISTXATTR "/mnt/f" 0].
Proof.
  apply (ListXAttr_reports_errno "/mnt/f" 0 (K_fails 13) []).
  - reflexivity.
  - discriminate.
Defined.

(** X7: for a file with at least one attribute, when listxattr reports the
    size of the name list to the probe and stores the list (each name
    followed by NUL) into the buffer of that size, [ListXAttr] returns
    exactly the names, in order, with errno 0, after the two calls. *)
Theorem ListXAttr_returns_the_names
    (path : string) (names : list string) (fuel : nat)
    (K : Kernel xattr.event) (tr : list xattr.event) :
  xattr.hasNUL path = false ->
  names <> [] ->
  Forall (fun name => xattr.hasNUL name = false) names ->
  let total := len (nameList names) in
  let probe := xattr.SYS_LISTXATTR path 0 in
  let fetch := xattr.SYS_LISTXATTR path total in
  total < 2 ^ 63 ->
  errno (K tr probe) = 0 -> r1 (K tr probe) = total ->
  errno (K (tr ++ [probe]) fetch) = 0 ->
  r1 (K (tr ++ [probe]) fetch) = total ->
  out (K (tr ++ [probe]) fetch) = nameList names ->
  xattr.ListXAttr (S fuel) path K tr =
    Returns (Some names, 0) (tr ++ [probe; fetch]).
Proof.
  intros Hp Hne Hall total probe fetch Hsmall Herr1 Hsz1 Herr2 Hsz2 Hout2.
  assert (Hpos : 0 < total).
  { subst total. destruct names as [|name names]; [contradiction|].
    rewrite nameList_cons. unfold len. rewrite length_app. simpl. lia. }
  rewrite (ListXAttr_probe_fetch path total fuel K tr Hp Herr1 Hsz1
             ltac:(lia));
    fold probe; fold fetch; rewrite ?Hsz2, ?Herr2, ?Hout2;
    rewrite ?(int_of_uintptr_small total) by lia; [|left; lia].
  change (int_of_uintptr 0) with 0.
  unfold xattr.reslice. rewrite stored_cap, make_cap by lia.
  destruct (Z.leb_spec 0 (total - 1)); [|lia].
  destruct (Z.leb_spec (total - 1) total); [|lia].
  cbn [andb xattr.elems].
  change (xattr.spare (xattr.stored (xattr.make total) (nameList names)))
    with (@nil byte).
  rewrite app_nil_r, stored_exact
    by (unfold xattr.make; cbn [xattr.elems]; rewrite length_replicate;
        subst total; unfold len; lia).
  replace (Z.to_nat (total - 1)) with (length (nameList names) - 1)%nat
    by (subst total; unfold len; lia).
  rewrite bytes_Split_nameList by assumption.
  now rewrite map_string_of_list_byte.
Qed.

Lemma ListXAttr_returns_the_names_witness :
  xattr.ListXAttr 1 "/mnt/f"
    (K_attributes ["user.a"; "security.selinux"; "user.b"]%string) [] =
    Returns (Some ["user.a"; "security.selinux"; "user.b"]%string, 0)
      [xattr.SYS_LISTXATTR "/mnt/f" 0; xattr.SYS_LISTXATTR "/mnt/f" 31].
Proof.
  apply (ListXAttr_returns_the_names "/mnt/f"
           ["user.a"; "security.selinux"; "user.b"]%string 0
           (K_attributes ["user.a"; "security.selinux"; "user.b"]%string) []);
    try reflexivity; try discriminate.
  repeat constructor.
Defined.

(** X8: [ListXAttr] does not look at the errno of the listxattr calls of
    its loop: when the probe reports a positive size and the call that
    follows fails (the kernel leaves -1 in the result register), it panics
    on [dest[:sz-1]] instead of returning the errno. *)
Theorem ListXAttr_panics_when_fetch_fails
    (path : string) (n : Z) (fuel : nat)
    (K : Kernel xattr.event) (tr : list xattr.event) :
  xattr.hasNUL path = false ->
  let probe := xattr.SYS_LISTXATTR path 0 in
  let fetch := xattr.SYS_LISTXATTR path n in
  errno (K tr probe) = 0 -> r1 (K tr probe) = n -> 0 < n < 2 ^ 63 ->
  int_of_uintptr (errno (K (tr ++ [probe]) fetch)) <> 0 ->
  int_of_uintptr (r1 (K (tr ++ [probe]) fetch)) <= 0 ->
  xattr.ListXAttr (S fuel) path K tr =
    Panics "slice bounds out of range" (tr ++ [probe; fetch]).
Proof.
  intros Hp probe fetch Herr1 Hsz1 Hn Herr2 Hsz2.
  rewrite (ListXAttr_probe_fetch path n fuel K tr Hp Herr1 Hsz1 Hn);
    [|right; exact Herr2].
  fold probe. fold fetch. unfold xattr.reslice.
  destruct (Z.leb_spec 0 (int_of_uintptr (r1 (K (tr ++ [probe]) fetch)) - 1));
    [lia|reflexivity].
Qed.

Lemma ListXAttr_panics_when_fetch_fails_witness :
  xattr.ListXAttr 1 "/mnt/f" K_list_grows [] =
    Panics "slice bounds out of range"
      [xattr.SYS_LISTXATTR "/mnt/f" 0; xattr.SYS_LISTXATTR "/mnt/f" 14].
Proof.
  apply (ListXAttr_panics_when_fetch_fails "/mnt/f" 14 0 K_list_grows []);
    try reflexivity; try discriminate.
  vm_compute. split; reflexivity.
Defined.

(** ** The Linux writer: the splice paths *)

Section Splice.
Variable serializeHeader : request -> Z -> list byte.

Lemma linux_after_failed_splice fuel ms req f K tr :
  flatDataSize req <> 0 -> fdData req = Some f -> canSplice ms = true ->
  let attempt := TrySplice (mountFd ms) (outputBuf req) f in
  errno (K tr attempt) <> 0 ->
  server_linux.systemWrite serializeHeader fuel ms req K tr =
    server_unix.systemWrite serializeHeader fuel ms req K
      (tr ++ [attempt; Println "trySplice:" (errno (K tr attempt))]).
Proof.
  intros Hsz Hfd Hsplice attempt Hfail.
  unfold server_linux.systemWrite, server_unix.systemWrite.
  destruct (decide (flatDataSize req = 0)) as [|_]; [contradiction|].
  rewrite Hfd, Hsplice. cbv zeta.
  unfold trySplice, bind at 1 2, call at 1, ret at 1. fold attempt.
  unfold errnoErr at 1.
  destruct (Z.eqb_spec (errno (K tr attempt)) 0) as [|_]; [contradiction|].
  unfold bind at 1, call at 1. rewrite <- app_assoc. reflexivity.
Qed.

Lemma linux_spliced fuel ms req f K tr :
  flatDataSize req <> 0 -> fdData req = Some f -> canSplice ms = true ->
  let attempt := TrySplice (mountFd ms) (outputBuf req) f in
  errno (K tr attempt) = 0 ->
  server_linux.systemWrite serializeHeader fuel ms req K tr =
    match readResult req with
    | Some rr => Returns (req, OK) (tr ++ [attempt; ReadResultDone rr])
    | None =>
        Panics "invalid memory address or nil pointer dereference"
               (tr ++ [attempt])
    end.
Proof.
  intros Hsz Hfd Hsplice attempt Hok. unfold server_linux.systemWrite.
  destruct (decide (flatDataSize req = 0)) as [|_]; [contradiction|].
  rewrite Hfd, Hsplice. cbv zeta.
  unfold trySplice, bind at 1 2, call at 1, ret at 1. fold attempt.
  rewrite Hok. cbn [errnoErr Z.eqb].
  destruct (readResult req) as [rr|]; [|reflexivity].
  cbn. now rewrite <- app_assoc.
Qed.

Lemma linux_without_fd_payload fuel ms req K tr :
  flatDataSize req = 0 \/ fdData req = None ->
  server_linux.systemWrite serializeHeader fuel ms req K tr =
    server_unix.systemWrite serializeHeader fuel ms req K tr.
Proof.
  intros Hcase. unfold server_linux.systemWrite, server_unix.systemWrite.
  destruct (decide (flatDataSize req = 0)) as [|Hnz]; [reflexivity|].
  destruct Hcase as [|Hfd]; [contradiction|]. now rewrite Hfd.
Qed.

(** What every returning run of the [!linux] writer leaves: events that
    extend the history, at most one [Done], and a request whose payload
    fields are untouched. *)
Lemma unix_run_frame fuel ms req K tr res tr' :
  server_unix.systemWrite serializeHeader fuel ms req K tr = Returns res tr' ->
  exists evs,
    tr' = tr ++ evs /\
    (countDone evs <= 1)%nat /\
    (readResult req = None -> countDone evs = 0%nat) /\
    fdData (fst res) = fdData req /\
    readResult (fst res) = readResult req /\
    (fdData req = None -> fst res = req).
Proof.
  intros Hrun.
  destruct (unix_returns _ _ _ _ _ _ _ _ Hrun)
    as (k & e & pre & w & -> & _ & _ & Hpre & Hw & Hshape).
  eexists. split; [reflexivity|].
  rewrite !countDone_app, Hpre, (countDone_replicate_not_done _ _ Hw).
  destruct (decide (flatDataSize req = 0)) as [Hz|Hnz].
  - destruct Hshape as (_ & _ & ->). cbn. repeat split; lia.
  - rewrite countDone_doneEvents. destruct Hshape as (_ & Hfd).
    split; [case_decide; simpl; lia|].
    split; [intros Hnone; case_decide; [reflexivity|contradiction]|].
    destruct (fdData req) as [f|] eqn:Hf.
    + destruct Hfd as (_ & data & st & Hres). cbv zeta in Hres.
      rewrite Hres. cbn. repeat split; [exact Hf|discriminate].
    + destruct Hfd as (_ & ->). now repeat split.
Qed.
End Splice.

(** X9: on Linux, when splicing was negotiated and the splice of an
    fd-backed payload succeeds, [systemWrite] issues no write and no writev,
    takes no buffer from the pool and reads nothing: after the attempt it
    calls [Done] once and returns OK, whatever the fuel. The call of [Done]
    has no nil check, so a request with [fdData] but no [readResult] panics
    there, after the attempt. *)
Theorem systemWrite_spliced
    (serializeHeader : request -> Z -> list byte)
    fuel ms req f K tr :
  flatDataSize req <> 0 -> fdData req = Some f -> canSplice ms = true ->
  let attempt := TrySplice (mountFd ms) (outputBuf req) f in
  errno (K tr attempt) = 0 ->
  (forall rr, readResult req = Some rr ->
     exists req',
       server_linux.systemWrite serializeHeader fuel ms req K tr =
         Returns (req', OK) (tr ++ [attempt; ReadResultDone rr])) /\
  (readResult req = None ->
     server_linux.systemWrite serializeHeader fuel ms req K tr =
       Panics "invalid memory address or nil pointer dereference"
              (tr ++ [attempt])).
Proof.
  intros Hsz Hfd Hsplice attempt Hok.
  rewrite (linux_spliced serializeHeader fuel ms req f K tr Hsz Hfd Hsplice Hok).
  fold attempt. split; [intros rr Hrr|intros Hrr]; rewrite Hrr;
    [now exists req|reflexivity].
Qed.

Lemma systemWrite_spliced_witness :
  (exists req',
     server_linux.systemWrite header_with_length 0 (MkServer 3 true)
       (fd_request 2) K_ok [] =
       Returns (req', OK)
         [TrySplice 3 [Byte.x10; Byte.x00] (fd_payload 2);
          ReadResultDone (readResultFdOf (fd_payload 2))]) /\
  server_linux.systemWrite header_with_length 0 (MkServer 3 true)
    (Request [Byte.x10; Byte.x00] [] (Some (fd_payload 2)) None OK) K_ok [] =
    Panics "invalid memory address or nil pointer dereference"
      [TrySplice 3 [Byte.x10; Byte.x00] (fd_payload 2)].
Proof.
  split.
  - apply (proj1 (systemWrite_spliced header_with_length 0 (MkServer 3 true)
             (fd_request 2) (fd_payload 2) K_ok []
             ltac:(discriminate) eq_refl eq_refl eq_refl)).
    reflexivity.
  - apply (proj2 (systemWrite_spliced header_with_length 0 (MkServer 3 true)
             (Request [Byte.x10; Byte.x00] [] (Some (fd_payload 2)) None OK)
             (fd_payload 2) K_ok []
             ltac:(discriminate) eq_refl eq_refl eq_refl)).
    reflexivity.
Defined.

(** X10: on Linux, after a splice attempt that fails, [systemWrite] logs the
    error and then does exactly what the [!linux] writer does from that
    point of the history on: same events, same result, for every request,
    environment and fuel. *)
Theorem systemWrite_failed_splice_continues_as_unix
    (serializeHeader : request -> Z -> list byte)
    fuel ms req f K tr :
  flatDataSize req <> 0 -> fdData req = Some f -> canSplice ms = true ->
  let attempt := TrySplice (mountFd ms) (outputBuf req) f in
  errno (K tr attempt) <> 0 ->
  server_linux.systemWrite serializeHeader fuel ms req K tr =
    server_unix.systemWrite serializeHeader fuel ms req K
      (tr ++ [attempt; Println "trySplice:" (errno (K tr attempt))]).
Proof. apply linux_after_failed_splice. Qed.

Lemma systemWrite_failed_splice_continues_as_unix_witness :
  server_linux.systemWrite header_with_length 3 (MkServer 3 true)
    (fd_request 2) (K_intr 5) [] =
  server_unix.systemWrite header_with_length 3 (MkServer 3 true)
    (fd_request 2) (K_intr 5)
    [TrySplice 3 [Byte.x10; Byte.x00] (fd_payload 2);
     Println "trySplice:" EINTR].
Proof.
  apply (systemWrite_failed_splice_continues_as_unix header_with_length 3
           (MkServer 3 true) (fd_request 2) (fd_payload 2) (K_intr 5) []);
    try reflexivity; discriminate.
Defined.

(** X11: every run of the Linux [systemWrite] that returns has only
    extended the history, has called [Done] at most once (and never when
    the request has no read result), and has left the [fdData] and
    [readResult] fields of the request as they were; a request without an
    fd-backed payload is returned unchanged. *)
Theorem systemWrite_done_at_most_once
    (serializeHeader : request -> Z -> list byte)
    fuel ms req K tr res tr' :
  server_linux.systemWrite serializeHeader fuel ms req K tr = Returns res tr' ->
  exists evs,
    tr' = tr ++ evs /\
    (countDone evs <= 1)%nat /\
    (readResult req = None -> countDone evs = 0%nat) /\
    fdData (fst res) = fdData req /\
    readResult (fst res) = readResult req /\
    (fdData req = None -> fst res = req).
Proof.
  intros Hrun.
  destruct (decide (flatDataSize req = 0)) as [Hz|Hnz].
  { rewrite linux_without_fd_payload in Hrun by now left.
    now apply unix_run_frame in Hrun. }
  destruct (fdData req) as [f|] eqn:Hfd; cycle 1.
  { rewrite linux_without_fd_payload in Hrun by now right.
    apply unix_run_frame in Hrun. now rewrite Hfd in Hrun. }
  destruct (canSplice ms) eqn:Hsplice; cycle 1.
  { rewrite <- unix_matches_linux in Hrun by exact Hsplice.
    apply unix_run_frame in Hrun. now rewrite Hfd in Hrun. }
  destruct (decide (errno (K tr (TrySplice (mountFd ms) (outputBuf req) f)) = 0))
    as [Hok|Hfail].
  - rewrite (linux_spliced _ fuel ms req f K tr Hnz Hfd Hsplice Hok) in Hrun.
    destruct (readResult req) as [rr|] eqn:Hrr; [|discriminate].
    injection Hrun as <- <-. eexists. split; [reflexivity|].
    cbn. rewrite Hfd, Hrr. repeat split; try lia; discriminate.
  - rewrite (linux_after_failed_splice _ fuel ms req f K tr Hnz Hfd Hsplice
               Hfail) in Hrun.
    apply unix_run_frame in Hrun
      as (evs & -> & Hone & Hnone & Hfd' & Hrr' & Hsame).
    rewrite Hfd in Hfd', Hsame.
    eexists. split; [now rewrite <- app_assoc|].
    rewrite countDone_app. cbn [countDone List.filter isDone length Nat.add].
    repeat split; assumption.
Qed.

Lemma systemWrite_done_at_most_once_witness :
  (countDone
     [TrySplice 3 [Byte.x10; Byte.x00] (fd_payload 2);
      Println "trySplice:" EINTR; AllocOut 2; Pread 9 2 0;
      Writev 3 [[Byte.x10; Byte.x00]; []];
      Writev 3 [[Byte.x10; Byte.x00]; []];
      ReadResultDone (readResultFdOf (fd_payload 2))] <= 1)%nat.
Proof.
  destruct (systemWrite_done_at_most_once header_with_length 3
              (MkServer 3 true) (fd_request 2) (K_intr 5) [] _ _ eq_refl)
    as (evs & Hevs & Hone & _).
  cbn [app] in Hevs. subst evs. exact Hone.
Defined.

(** ** The xattr shims: termination *)

Section Bounded.
Variable K : Kernel xattr.event.
Variable bound : Z.
Hypothesis sizes_bounded : forall h ev, int_of_uintptr (r1 (K h ev)) <= bound.

Lemma getxattr_size_bounded path attr dest tr res tr' :
  xattr.getxattr path attr dest K tr = Returns res tr' ->
  xattr.cap (snd res) = xattr.cap dest /\
  (fst (fst res) <= bound \/ snd (fst res) <> 0).
Proof using sizes_bounded.
  unfold xattr.getxattr.
  destruct (xattr.BytePtrFromString path);
    [|intros Heq; injection Heq as <- _; split; [reflexivity|right; discriminate]].
  destruct (xattr.BytePtrFromString attr);
    [|intros Heq; injection Heq as <- _; split; [reflexivity|right; discriminate]].
  destruct (xattr.elems dest) eqn:Hel; [discriminate|].
  unfold bind, call, ret. intros Heq. injection Heq as <- _. cbn [fst snd].
  split; [apply stored_cap|left; apply sizes_bounded].
Qed.

Lemma listxattr_size_bounded path dest tr res tr' :
  xattr.listxattr path dest K tr = Returns res tr' ->
  xattr.cap (snd res) = xattr.cap dest /\
  (fst (fst res) <= bound \/ snd (fst res) <> 0).
Proof using sizes_bounded.
  unfold xattr.listxattr.
  destruct (xattr.BytePtrFromString path);
    [|intros Heq; injection Heq as <- _; split; [reflexivity|right; discriminate]].
  unfold bind, call, ret. intros Heq. injection Heq as <- _. cbn [fst snd].
  split; [apply stored_cap|left; apply sizes_bounded].
Qed.

Lemma getxattr_not_Diverges path attr dest tr :
  xattr.getxattr path attr dest K tr <> Diverges.
Proof.
  unfold xattr.getxattr.
  destruct (xattr.BytePtrFromString path); [|discriminate].
  destruct (xattr.BytePtrFromString attr); [|discriminate].
  destruct (xattr.elems dest); discriminate.
Qed.

Lemma listxattr_not_Diverges path dest tr :
  xattr.listxattr path dest K tr <> Diverges.
Proof.
  unfold xattr.listxattr.
  destruct (xattr.BytePtrFromString path); discriminate.
Qed.

Lemma GetXAttr_loop_terminates path attr : forall fuel dest sz e tr,
  sz <= bound \/ e <> 0 ->
  bound - xattr.cap dest < Z.of_nat fuel ->
  xattr.GetXAttr_loop fuel path attr dest sz e K tr <> Diverges.
Proof using sizes_bounded.
  induction fuel as [|fuel IH]; intros dest sz e tr Hsz Hfuel.
  - rewrite GetXAttr_loop_stops; [discriminate|].
    destruct Hsz as [Hsz|Hne]; [left; lia|now right].
  - destruct (Z.gtb_spec sz (xattr.cap dest)) as [Hgt|Hle];
      [destruct (Z.eqb_spec e 0) as [He|Hne]|].
    + rewrite GetXAttr_loop_step by assumption. unfold bind.
      pose proof (cap_nonneg dest) as Hcap0.
      destruct (xattr.getxattr path attr (xattr.make sz) K tr)
        as [res tr1| |] eqn:Hcall; [|discriminate|].
      * destruct (getxattr_size_bounded _ _ _ _ _ _ Hcall) as [Hcap Hb].
        apply IH; [exact Hb|]. rewrite Hcap, make_cap by lia.
        destruct Hsz as [Hsz|Hsz]; [lia|contradiction].
      * now apply getxattr_not_Diverges in Hcall.
    + rewrite GetXAttr_loop_stops by now right. discriminate.
    + rewrite GetXAttr_loop_stops by (left; lia). discriminate.
Qed.

Lemma ListXAttr_loop_terminates path : forall fuel dest sz e tr,
  sz <= bound \/ e <> 0 ->
  bound - xattr.cap dest < Z.of_nat fuel ->
  xattr.ListXAttr_loop fuel path dest sz e K tr <> Diverges.
Proof using sizes_bounded.
  induction fuel as [|fuel IH]; intros dest sz e tr Hsz Hfuel.
  - rewrite ListXAttr_loop_stops; [discriminate|].
    destruct Hsz as [Hsz|Hne]; [left; lia|now right].
  - destruct (Z.gtb_spec sz (xattr.cap dest)) as [Hgt|Hle];
      [destruct (Z.eqb_spec e 0) as [He|Hne]|].
    + rewrite ListXAttr_loop_step by assumption. unfold bind.
      pose proof (cap_nonneg dest) as Hcap0.
      destruct (xattr.listxattr path (xattr.make sz) K tr)
        as [res tr1| |] eqn:Hcall; [|discriminate|].
      * destruct (listxattr_size_bounded _ _ _ _ _ Hcall) as [Hcap Hb].
        apply IH; [exact Hb|]. rewrite Hcap, make_cap by lia.
        destruct Hsz as [Hsz|Hsz]; [lia|contradiction].
      * now apply listxattr_not_Diverges in Hcall.
    + rewrite ListXAttr_loop_stops by now right. discriminate.
    + rewrite ListXAttr_loop_stops by (left; lia). discriminate.
Qed.

Lemma GetXAttr_terminates path attr dest fuel tr :
  bound < Z.of_nat fuel ->
  xattr.GetXAttr fuel path attr dest K tr <> Diverges.
Proof using sizes_bounded.
  intros Hfuel. unfold xattr.GetXAttr, bind at 1.
  destruct (xattr.getxattr path attr dest K tr) as [res tr1| |] eqn:Hcall;
    [|discriminate|now apply getxattr_not_Diverges in Hcall].
  destruct (getxattr_size_bounded _ _ _ _ _ _ Hcall) as [Hcap Hb].
  unfold bind at 1.
  destruct (xattr.GetXAttr_loop fuel path attr (snd res) (fst (fst res))
              (snd (fst res)) K tr1) as [res2 tr2| |] eqn:Hloop;
    [|discriminate|].
  - case_decide; [discriminate|].
    destruct (xattr.reslice _ _); discriminate.
  - exfalso. revert Hloop. apply GetXAttr_loop_terminates; [exact Hb|].
    pose proof (cap_nonneg (snd res)). lia.
Qed.

Lemma ListXAttr_terminates path fuel tr :
  bound < Z.of_nat fuel ->
  xattr.ListXAttr fuel path K tr <> Diverges.
Proof using sizes_bounded.
  intros Hfuel. unfold xattr.ListXAttr, bind at 1.
  destruct (xattr.listxattr path (xattr.make 0) K tr) as [res tr1| |] eqn:Hcall;
    [|discriminate|now apply listxattr_not_Diverges in Hcall].
  destruct (listxattr_size_bounded _ _ _ _ _ Hcall) as [Hcap Hb].
  case_decide; [discriminate|]. unfold bind at 1.
  destruct (xattr.ListXAttr_loop fuel path (snd res) (fst (fst res))
              (snd (fst res)) K tr1) as [res2 tr2| |] eqn:Hloop;
    [|discriminate|].
  - destruct (xattr.reslice _ _); discriminate.
  - exfalso. revert Hloop. apply ListXAttr_loop_terminates; [exact Hb|].
    pose proof (cap_nonneg (snd res)). lia.
Qed.
End Bounded.

(** X12: the loops of [GetXAttr] and [ListXAttr] end: when the kernel never
    reports a size above [bound], a run with more than [bound] rounds of
    fuel returns or panics. Each round allocates a strictly larger buffer,
    so at most [bound] rounds can follow one another. *)
Theorem xattr_loops_terminate
    (K : Kernel xattr.event) (bound : Z) (fuel : nat)
    (path attr : string) (dest : xattr.slice) (tr : list xattr.event) :
  (forall h ev, int_of_uintptr (r1 (K h ev)) <= bound) ->
  bound < Z.of_nat fuel ->
  xattr.GetXAttr fuel path attr dest K tr <> Diverges /\
  xattr.ListXAttr fuel path K tr <> Diverges.
Proof.
  intros Hbound Hfuel. split.
  - now apply (GetXAttr_terminates K bound Hbound).
  - now apply (ListXAttr_terminates K bound Hbound).
Qed.

Lemma xattr_loops_terminate_witness :
  xattr.GetXAttr 4 "/mnt/f" "user.a" (xattr.make 1) K_value_abc [] <> Diverges /\
  xattr.ListXAttr 4 "/mnt/f" K_value_abc [] <> Diverges.
Proof.
  apply (xattr_loops_terminate K_value_abc 3 4).
  - intros h [p a size|p size|p a d fl]; cbn; [destruct (size <? 3)| |];
      vm_compute; discriminate.
  - lia.
Defined.

(** ** The poll hack: the descriptor *)

Lemma int32_small x : 0 <= x < 2 ^ 31 -> poll_darwin.int32 x = x.
Proof.
  intros Hx. unfold poll_darwin.int32. rewrite Z.mod_small by lia.
  destruct (Z.ltb_spec x (2 ^ 31)); [reflexivity|lia].
Qed.

(** X13: when the open of the probe file succeeds with a descriptor that
    fits an int32, [pollHack] polls that very descriptor, closes that very
    descriptor, and returns nil whatever poll and close answer: their
    results are never looked at. *)
Theorem pollHack_polls_the_probe_descriptor
    (pollHackName : string) (filepath_Join : string -> string -> string)
    mountPoint K tr fd :
  let probe := poll_darwin.SYS_OPEN (filepath_Join mountPoint pollHackName)
                 poll_darwin.O_RDONLY 0 in
  errno (K tr probe) = 0 -> r1 (K tr probe) = fd -> 0 <= fd < 2 ^ 31 ->
  poll_darwin.pollHack pollHackName filepath_Join mountPoint K tr =
    Returns None
      (tr ++ [probe; poll_darwin.SYS_POLL [poll_darwin.PollFd fd 7 0] 0;
              poll_darwin.SYS_CLOSE fd]).
Proof.
  intros probe Herr Hfd Hrange.
  destruct (pollHack_cases pollHackName filepath_Join mountPoint K tr)
    as (_ & _ & Hok).
  fold probe in Hok. rewrite (Hok Herr), Hfd, int32_small by exact Hrange.
  reflexivity.
Qed.

Lemma pollHack_polls_the_probe_descriptor_witness :
  poll_darwin.pollHack ".go-fuse-epoll-hack" poll_darwin.join_with_slash
    "/mnt" (fun _ ev => match ev with
                        | poll_darwin.SYS_OPEN _ _ _ => SysRet 5 0 []
                        | _ => SysRet (2 ^ 64 - 1) 9 []
                        end) [] =
    Returns None
      [poll_darwin.SYS_OPEN "/mnt/.go-fuse-epoll-hack" 0 0;
       poll_darwin.SYS_POLL [poll_darwin.PollFd 5 7 0] 0;
       poll_darwin.SYS_CLOSE 5].
Proof.
  apply (pollHack_polls_the_probe_descriptor ".go-fuse-epoll-hack"
           poll_darwin.join_with_slash "/mnt" _ [] 5); try reflexivity.
  vm_compute. split; [discriminate|reflexivity].
Defined.

(** ** The two writers, with splicing negotiated *)

(** X14: for a reply without an fd-backed payload, and for a reply whose
    flat data size is zero, the Linux writer and the [!linux] writer
    coincide even when splicing was negotiated: the splice is only ever
    tried for an fd-backed payload of non-zero size. *)
Theorem systemWrite_splice_only_for_fd_payload
    (serializeHeader : request -> Z -> list byte)
    fuel ms req K tr :
  flatDataSize req = 0 \/ fdData req = None ->
  server_linux.systemWrite serializeHeader fuel ms req K tr =
    server_unix.systemWrite serializeHeader fuel ms req K tr.
Proof. apply linux_without_fd_payload. Qed.

Lemma systemWrite_splice_only_for_fd_payload_witness :
  server_linux.systemWrite header_with_length 3 (MkServer 3 true)
    (flat_request [Byte.x61]) (K_intr 2) [] =
  server_unix.systemWrite header_with_length 3 (MkServer 3 true)
    (flat_request [Byte.x61]) (K_intr 2) [].
Proof.
  apply (systemWrite_splice_only_for_fd_payload header_with_length 3
           (MkServer 3 true) (flat_request [Byte.x61]) (K_intr 2) []).
  right. reflexivity.
Defined.
